(** * kbisect: the slave deployer (src/kbisect/deployment/deployer.py)

    A shallow embedding of [SlaveDeployer] and of the workflow it runs against
    a remote machine.  The remote channel ([SSHClient.run_command]), the copy
    tool ([subprocess.run] on rsync) and the local file system ([Path.exists])
    are the program's environment: they are kept abstract in a [Host], and
    every method is a computation that threads the host's state, may raise a
    Python exception, and records what it asked of the environment and what it
    logged.

    Python [str] values are modelled as [string], read as UTF-8 bytes: every
    test the program makes on text ([in], [rfind], [rstrip], [replace], the
    character classes of [shlex.quote]) is on ASCII characters only and so
    gives the same answer on bytes as on code points.

    Scope of the model: the collaborators return values of their declared
    types or raise an [Exception] ([Path.exists] included, which lets through
    every [OSError] it does not read as absence); interrupts ([BaseException]
    outside [Exception]) are left out, and logging returns. *)

From Stdlib Require Import String Ascii List ZArith Bool Lia.
Import ListNotations.
Open Scope string_scope.
Open Scope Z_scope.

(** ** Constants *)

Definition DEFAULT_DEPLOY_PATH : string := "/root/kernel-bisect/lib".
Definition DEFAULT_STATE_DIR : string := "/var/lib/kernel-bisect".
Definition DEFAULT_SSH_TIMEOUT : Z := 30.

(** ** Exceptions

    [DeploymentError] has the two subclasses the module raises.  What the
    collaborators raise is any [Exception]; the one class the program tells
    apart is [subprocess.TimeoutExpired].  Each value carries its [str()]. *)

Inductive exn : Type :=
  | SSHError (msg : string)
  | TransferError (msg : string)
  | TimeoutExpired (msg : string)
  | OtherException (msg : string).

Definition str_exn (e : exn) : string :=
  match e with
  | SSHError m | TransferError m | TimeoutExpired m | OtherException m => m
  end.

Definition is_SSHError (e : exn) : bool :=
  match e with SSHError _ => true | _ => false end.

Definition is_TransferError (e : exn) : bool :=
  match e with TransferError _ => true | _ => false end.

Definition is_TimeoutExpired (e : exn) : bool :=
  match e with TimeoutExpired _ => true | _ => false end.

(** ** Text helpers of the Python library used by the program *)

(** [needle in hay]. *)
Fixpoint contains (needle hay : string) : bool :=
  if prefix needle hay then true
  else match hay with
       | EmptyString => false
       | String _ rest => contains needle rest
       end.

Definition is_slash (c : ascii) : bool := Ascii.eqb c "/"%char.

Fixpoint all_slashes (s : string) : bool :=
  match s with
  | EmptyString => true
  | String c rest => is_slash c && all_slashes rest
  end.

Fixpoint has_slash (s : string) : bool :=
  match s with
  | EmptyString => false
  | String c rest => is_slash c || has_slash rest
  end.

(** [p[:p.rfind('/') + 1]]: a character is kept when a slash stands at or
    after it. *)
Fixpoint upto_last_slash (p : string) : string :=
  match p with
  | EmptyString => EmptyString
  | String c rest =>
      if has_slash p then String c (upto_last_slash rest) else EmptyString
  end.

(** [s.rstrip('/')]. *)
Fixpoint rstrip_slashes (s : string) : string :=
  match s with
  | EmptyString => EmptyString
  | String c rest =>
      if all_slashes s then EmptyString else String c (rstrip_slashes rest)
  end.

(** [os.path.dirname] (posixpath). *)
Definition dirname (p : string) : string :=
  let head := upto_last_slash p in
  if negb (String.eqb head "") && negb (all_slashes head)
  then rstrip_slashes head
  else head.

Definition squote : string := "'".
Definition dquote : string := String (ascii_of_nat 34) EmptyString.

(** The characters [shlex.quote] leaves alone: [\w@%+=:,./-] with [re.ASCII]. *)
Definition shell_safe (c : ascii) : bool :=
  let n := nat_of_ascii c in
  ((48 <=? n) && (n <=? 57))%nat || ((65 <=? n) && (n <=? 90))%nat
  || ((97 <=? n) && (n <=? 122))%nat
  || existsb (Ascii.eqb c)
       ["_"; "@"; "%"; "+"; "="; ":"; ","; "."; "/"; "-"]%char.

Fixpoint all_shell_safe (s : string) : bool :=
  match s with
  | EmptyString => true
  | String c rest => shell_safe c && all_shell_safe rest
  end.

(** [s.replace("'", q)]. *)
Fixpoint replace_squote (q s : string) : string :=
  match s with
  | EmptyString => EmptyString
  | String c rest =>
      if Ascii.eqb c "'"%char then q ++ replace_squote q rest
      else String c (replace_squote q rest)
  end.

(** [shlex.quote]. *)
Definition shlex_quote (s : string) : string :=
  if String.eqb s "" then squote ++ squote
  else if all_shell_safe s then s
  else squote
       ++ replace_squote (squote ++ dquote ++ squote ++ dquote ++ squote) s
       ++ squote.

(** [str(path / name)] for a [pathlib] path given by its [str]. *)
Definition path_div (p name : string) : string :=
  if String.eqb p "." then name
  else if all_slashes p then p ++ name
  else p ++ "/" ++ name.

(** [s * n]. *)
Fixpoint str_mul (s : string) (n : nat) : string :=
  match n with
  | O => ""
  | S k => s ++ str_mul s k
  end.

(** What a Python call ends with: a value or an exception. *)
Inductive outcome (A : Type) : Type :=
  | Val (a : A)
  | Exn (e : exn).
Arguments Val {A} a.
Arguments Exn {A} e.

(** ** The environment *)

(** What a collaborator call comes back with: a completed command (exit code
    and captured output) or an exception. *)
Inductive reply : Type :=
  | Returned (ret : Z) (stdout stderr : string)
  | Raised (e : exn).

Class Host : Type := {
  world : Type;
  (** [SSHClient.run_command(command, timeout=...)] *)
  run_command : string -> Z -> world -> reply * world;
  (** [subprocess.run(argv, capture_output=True, text=True, timeout=...,
      check=False)] *)
  subprocess_run : list string -> Z -> world -> reply * world;
  (** [Path.exists()] on the local file system: true, false, or the
      [OSError] it re-raises (a name too long, a permission denied, ...) *)
  path_exists : string -> world -> outcome bool
}.

Inductive level : Type := DEBUG | INFO | WARNING | ERROR.

(** What a run leaves behind, in program order. *)
Inductive event : Type :=
  | EvSsh (command : string) (timeout : Z) (r : reply)
  | EvRsync (argv : list string) (timeout : Z) (r : reply)
  | EvExists (path : string) (found : outcome bool)
  | EvLog (lvl : level) (msg : string).

(** ** Computations *)

Record run `{Host} (A : Type) : Type := Run {
  result : outcome A;
  final : world;
  events : list event
}.
Arguments Run {_ A} result final events.
Arguments result {_ A} r.
Arguments final {_ A} r.
Arguments events {_ A} r.

Definition M `{Host} (A : Type) : Type := world -> run A.

Section Monad.
Context `{Host}.

Definition pure {A} (a : A) : M A := fun w => Run (Val a) w [].

Definition raise {A} (e : exn) : M A := fun w => Run (Exn e) w [].

(** A run that comes after the events [evs]. *)
Definition prepend {A} (evs : list event) (r : run A) : run A :=
  Run (result r) (final r) (evs ++ events r).

Definition bind {A B} (m : M A) (k : A -> M B) : M B := fun w =>
  let r := m w in
  match result r with
  | Val a => prepend (events r) (k a (final r))
  | Exn e => Run (Exn e) (final r) (events r)
  end.

(** [try: body / except ...: handler], the statement's value being the
    body's or the handler's.  A handler re-raises the classes it has no
    clause for. *)
Definition try_except {A} (body : M A) (handler : exn -> M A) : M A :=
  fun w =>
    let r := body w in
    match result r with
    | Val a => r
    | Exn e => prepend (events r) (handler e (final r))
    end.

(** [try: x = body / except ...: handler (which returns)], followed by the
    rest of the function, [rest x]. *)
Definition try_or_return {A B} (body : M A) (handler : exn -> M B)
    (rest : A -> M B) : M B := fun w =>
  let r := body w in
  match result r with
  | Val a => prepend (events r) (rest a (final r))
  | Exn e => prepend (events r) (handler e (final r))
  end.

Definition log (lvl : level) (msg : string) : M unit := fun w =>
  Run (Val tt) w [EvLog lvl msg].

Definition of_reply (r : reply) : outcome (Z * string * string) :=
  match r with
  | Returned ret out err => Val (ret, out, err)
  | Raised e => Exn e
  end.

Definition ssh_client_run_command (command : string) (timeout : Z)
    : M (Z * string * string) := fun w =>
  let (r, w') := run_command command timeout w in
  Run (of_reply r) w' [EvSsh command timeout r].

Definition subprocess_run_rsync (argv : list string) (timeout : Z)
    : M (Z * string * string) := fun w =>
  let (r, w') := subprocess_run argv timeout w in
  Run (of_reply r) w' [EvRsync argv timeout r].

Definition exists_ (path : string) : M bool := fun w =>
  let found := path_exists path w in
  Run found w [EvExists path found].
End Monad.

Declare Scope py_scope.
Delimit Scope py_scope with py.
Notation "x <- m ;; k" := (bind m (fun x => k))
  (at level 61, m at next level, right associativity) : py_scope.
Notation "' p <- m ;; k" := (bind m (fun x => match x with p => k end))
  (at level 61, p pattern, m at next level, right associativity) : py_scope.
Notation "m ;; k" := (bind m (fun _ => k))
  (at level 61, right associativity) : py_scope.
Open Scope py_scope.

(** ** The deployer *)

(** The attributes of a [SlaveDeployer] after [__init__]; [ssh_client] is the
    host.  [local_lib_path] is the [str] of the [Path] it holds. *)
Record SlaveDeployer : Type := {
  slave_host : string;
  slave_user : string;
  deploy_path : string;
  local_lib_path : string
}.

Section Deployer.
Context `{Host}.
Variable self : SlaveDeployer.

Definition _ssh_command (command : string) (timeout : Z)
    : M (Z * string * string) :=
  try_except (ssh_client_run_command command timeout)
    (fun exc =>
       let msg := "SSH command failed: " ++ str_exn exc in
       log ERROR msg ;;
       raise (SSHError msg)).

Definition rsync_cmd (local_path remote_path : string) : list string :=
  [ "rsync";
    "-az";
    "-e";
    "ssh -o StrictHostKeyChecking=no -o ConnectTimeout=10";
    local_path;
    slave_user self ++ "@" ++ slave_host self ++ ":" ++ remote_path ].

Definition _copy_to_slave (local_path remote_path : string) : M bool :=
  try_except
    (let remote_dir := dirname remote_path in
     '(ret, _, stderr) <-
       _ssh_command ("mkdir -p " ++ shlex_quote remote_dir)
         DEFAULT_SSH_TIMEOUT ;;
     if negb (ret =? 0) then
       log ERROR ("Failed to create remote directory: " ++ stderr) ;;
       pure false
     else
       '(returncode, _, rsync_stderr) <-
         subprocess_run_rsync (rsync_cmd local_path remote_path) 60 ;;
       if returncode =? 0 then pure true
       else
         log ERROR ("rsync failed: " ++ rsync_stderr) ;;
         pure false)
    (fun exc =>
       if is_TimeoutExpired exc then
         let msg := "File transfer timed out" in
         log ERROR msg ;;
         raise (TransferError msg)
       else
         let msg := "File transfer error: " ++ str_exn exc in
         log ERROR msg ;;
         raise (TransferError msg)).

Definition check_connectivity : M bool :=
  log INFO ("Checking SSH connectivity to " ++ slave_host self ++ "...") ;;
  try_or_return (_ssh_command "echo test" 300)
    (fun exc =>
       if is_SSHError exc then
         log ERROR "✗ SSH connectivity failed" ;;
         pure false
       else raise exc)
    (fun '(ret, stdout, stderr) =>
       if (ret =? 0) && contains "test" stdout then
         log INFO "✓ SSH connectivity OK" ;;
         pure true
       else
         log ERROR ("✗ SSH connectivity failed: " ++ stderr) ;;
         pure false).

(** The [for directory in directories] loop; [done] is the code after it. *)
Fixpoint create_directories_loop (directories : list string)
    (done : M bool) : M bool :=
  match directories with
  | [] => done
  | directory :: rest =>
      try_or_return
        (_ssh_command ("mkdir -p " ++ directory) DEFAULT_SSH_TIMEOUT)
        (fun exc =>
           if is_SSHError exc then
             log ERROR ("Failed to create " ++ directory) ;;
             pure false
           else raise exc)
        (fun '(ret, _, stderr) =>
           if negb (ret =? 0) then
             log ERROR ("Failed to create " ++ directory ++ ": " ++ stderr) ;;
             pure false
           else create_directories_loop rest done)
  end.

Definition directories : list string :=
  [ deploy_path self; DEFAULT_STATE_DIR; "/var/log" ].

Definition create_directories : M bool :=
  log INFO "Creating directories on slave..." ;;
  create_directories_loop directories
    (log INFO "✓ Directories created" ;;
     pure true).

Definition library_file : string :=
  path_div (local_lib_path self) "bisect-functions.sh".

Definition remote_library : string :=
  deploy_path self ++ "/bisect-functions.sh".

(** The [if not self._copy_to_slave(...)] test stands inside the source's
    [try]; it is placed after it here, which is the same since logging
    raises no [TransferError]. *)
Definition deploy_library : M bool :=
  log INFO ("Deploying library from " ++ local_lib_path self
            ++ " to slave...") ;;
  found <- exists_ (local_lib_path self) ;;
  if negb found then
    log ERROR ("Local library path not found: " ++ local_lib_path self) ;;
    pure false
  else
    found <- exists_ library_file ;;
    if negb found then
      log ERROR ("Library file not found: " ++ library_file) ;;
      pure false
    else
      try_or_return
        (_ssh_command ("mkdir -p " ++ deploy_path self) DEFAULT_SSH_TIMEOUT)
        (fun exc =>
           if is_SSHError exc then
             log ERROR "Failed to create deploy directory on slave" ;;
             pure false
           else raise exc)
        (fun '(ret, _, _) =>
           if negb (ret =? 0) then
             log ERROR "Failed to create deploy directory on slave" ;;
             pure false
           else
             try_or_return (_copy_to_slave library_file remote_library)
               (fun exc =>
                  if is_TransferError exc then pure false else raise exc)
               (fun copied =>
                  if negb copied then
                    log ERROR "Failed to copy library file" ;;
                    pure false
                  else
                    try_or_return
                      (_ssh_command ("chmod +x " ++ remote_library)
                         DEFAULT_SSH_TIMEOUT)
                      (fun exc =>
                         if is_SSHError exc then
                           log WARNING "Failed to chmod library" ;;
                           pure true
                         else raise exc)
                      (fun '(ret, _, stderr) =>
                         (if negb (ret =? 0) then
                            log WARNING ("Failed to chmod library: " ++ stderr)
                          else pure tt) ;;
                         log INFO "✓ Library deployed" ;;
                         pure true))).

Definition init_command : string :=
  "source " ++ deploy_path self ++ "/bisect-functions.sh && init_protection".

Definition initialize_protection : M bool :=
  log INFO "Initializing kernel protection..." ;;
  try_or_return (_ssh_command init_command 60)
    (fun exc =>
       if is_SSHError exc then
         log ERROR "Failed to initialize protection" ;;
         pure false
       else raise exc)
    (fun '(ret, stdout, stderr) =>
       if negb (ret =? 0) then
         log ERROR ("Failed to initialize protection: " ++ stderr) ;;
         pure false
       else
         log INFO "✓ Kernel protection initialized" ;;
         log DEBUG ("Protection output: " ++ stdout) ;;
         pure true).

(** One of the four [try] blocks of [verify_deployment], on the two locals
    [all_passed] and [checks]: the probe [command], and the entry appended
    when it exits 0, exits otherwise, or the channel raises. *)
Definition check_block (command passed missing failed : string)
    (locals : bool * list string) : M (bool * list string) :=
  let '(all_passed, checks) := locals in
  try_except
    ('(ret, _, _) <- _ssh_command command DEFAULT_SSH_TIMEOUT ;;
     if ret =? 0 then pure (all_passed, (checks ++ [passed])%list)
     else pure (false, (checks ++ [missing])%list))
    (fun exc =>
       if is_SSHError exc then pure (false, (checks ++ [failed])%list)
       else raise exc).

(** [for check in checks: logger.info(f"  {check}")] *)
Fixpoint log_checks (checks : list string) : M unit :=
  match checks with
  | [] => pure tt
  | check :: rest => log INFO ("  " ++ check) ;; log_checks rest
  end.

Definition verify_deployment : M (bool * list string) :=
  log INFO "Verifying deployment..." ;;
  locals <- check_block ("test -d " ++ deploy_path self)
    "✓ Library directory exists"
    "✗ Library directory missing"
    "✗ Library directory check failed" (true, []) ;;
  locals <- check_block ("test -x " ++ deploy_path self ++ "/bisect-functions.sh")
    "✓ bisect-functions.sh executable"
    "✗ bisect-functions.sh not found"
    "✗ bisect-functions.sh check failed" locals ;;
  locals <- check_block ("test -f " ++ DEFAULT_STATE_DIR ++ "/protected-kernels.list")
    "✓ Kernel protection initialized"
    "✗ Kernel protection not initialized"
    "✗ Kernel protection check failed" locals ;;
  locals <- check_block ("test -d " ++ DEFAULT_STATE_DIR)
    "✓ State directory exists"
    "✗ State directory missing"
    "✗ State directory check failed" locals ;;
  let '(all_passed, checks) := locals in
  log_checks checks ;;
  pure (all_passed, checks).

Definition banner : string := str_mul "=" 60.

Definition deploy_full : M bool :=
  log INFO banner ;;
  log INFO "Starting slave deployment" ;;
  log INFO banner ;;
  ok <- check_connectivity ;;
  if negb ok then
    log ERROR "Deployment failed: No SSH connectivity" ;;
    pure false
  else
    ok <- create_directories ;;
    if negb ok then
      log ERROR "Deployment failed: Could not create directories" ;;
      pure false
    else
      ok <- deploy_library ;;
      if negb ok then
        log ERROR "Deployment failed: Could not deploy library" ;;
        pure false
      else
        ok <- initialize_protection ;;
        if negb ok then
          log ERROR "Deployment failed: Could not initialize protection" ;;
          pure false
        else
          '(success, checks) <- verify_deployment ;;
          if (success : bool) then
            log INFO banner ;;
            log INFO "✓ Deployment completed successfully!" ;;
            log INFO banner ;;
            pure true
          else
            log ERROR banner ;;
            log ERROR "✗ Deployment completed with errors" ;;
            log ERROR banner ;;
            pure false.

Definition critical_checks : list string :=
  [ "test -d " ++ deploy_path self;
    "test -x " ++ deploy_path self ++ "/bisect-functions.sh";
    "test -f " ++ DEFAULT_STATE_DIR ++ "/protected-kernels.list" ].

(** The [for check in critical_checks] loop of [is_deployed], followed by
    its [return True]. *)
Fixpoint is_deployed_loop (checks : list string) : M bool :=
  match checks with
  | [] => pure true
  | check :: rest =>
      try_or_return (_ssh_command check DEFAULT_SSH_TIMEOUT)
        (fun exc => if is_SSHError exc then pure false else raise exc)
        (fun '(ret, _, _) =>
           if negb (ret =? 0) then pure false else is_deployed_loop rest)
  end.

Definition is_deployed : M bool := is_deployed_loop critical_checks.

Definition update_library : M bool :=
  log INFO "Updating library file..." ;;
  ok <- deploy_library ;;
  if negb ok then
    log ERROR "Library update failed" ;;
    pure false
  else
    log INFO "✓ Library updated successfully" ;;
    pure true.
End Deployer.

(** ** Concrete hosts

    A stateless host that answers a remote command by its text, the copy tool
    by one fixed reply, and existence queries by a fixed file system. *)

Definition scripted_host (ssh : string -> reply) (rsync : reply)
    (fs : string -> bool) : Host := {|
  world := unit;
  run_command := fun command _ w => (ssh command, w);
  subprocess_run := fun _ _ w => (rsync, w);
  path_exists := fun path _ => Val (fs path)
|}.

Definition a_deployer : SlaveDeployer := {|
  slave_host := "slave.example";
  slave_user := "root";
  deploy_path := DEFAULT_DEPLOY_PATH;
  local_lib_path := "/opt/kbisect/lib"
|}.

Definition ok_reply : reply := Returned 0 "test" "".
Definition exit1 : reply := Returned 1 "" "denied".
Definition channel_down : reply := Raised (OtherException "connection refused").

(** Every command exits 0, except those starting with [failing], which get
    [bad]. *)
Definition ssh_failing (failing : string) (bad : reply) (command : string)
    : reply :=
  if prefix failing command then bad else ok_reply.

Definition all_present (_ : string) : bool := true.

Definition healthy_host : Host :=
  scripted_host (fun _ => ok_reply) ok_reply all_present.

(** The channel breaks on [chmod], and only there. *)
Definition chmod_raises_host : Host :=
  scripted_host (ssh_failing "chmod" channel_down) ok_reply all_present.

(** [chmod] exits 1. *)
Definition chmod_exits_host : Host :=
  scripted_host (ssh_failing "chmod" exit1) ok_reply all_present.

(** Every [mkdir] exits 1. *)
Definition mkdir_exits_host : Host :=
  scripted_host (ssh_failing "mkdir" exit1) ok_reply all_present.

(** Every [mkdir] finds the channel down. *)
Definition mkdir_raises_host : Host :=
  scripted_host (ssh_failing "mkdir" channel_down) ok_reply all_present.

(** The copy tool exits 23. *)
Definition rsync_exits_host : Host :=
  scripted_host (fun _ => ok_reply) (Returned 23 "" "rsync error")
    all_present.

(** The login shell prints a greeting and nothing else. *)
Definition greeting_host : Host :=
  scripted_host (fun _ => Returned 0 "Welcome" "") ok_reply all_present.





(** The initialization command exits 1. *)
Definition init_exits_host : Host :=
  scripted_host (ssh_failing "source" exit1) ok_reply all_present.

(** ** Reading a run *)

(** The remote commands of a trace, with their timeouts and replies. *)
Fixpoint ssh_calls (evs : list event) : list (string * Z * reply) :=
  match evs with
  | [] => []
  | EvSsh command timeout r :: rest => (command, timeout, r) :: ssh_calls rest
  | _ :: rest => ssh_calls rest
  end.

(** The invocations of the copy tool in a trace. *)
Fixpoint rsync_calls (evs : list event) : list (list string * Z * reply) :=
  match evs with
  | [] => []
  | EvRsync argv timeout r :: rest => (argv, timeout, r) :: rsync_calls rest
  | _ :: rest => rsync_calls rest
  end.

(** A probe passes when the command completed with exit code 0. *)
Definition probe_ok (r : reply) : bool :=
  match r with
  | Returned ret _ _ => ret =? 0
  | Raised _ => false
  end.

Definition is_raised (r : reply) : bool :=
  match r with
  | Returned _ _ _ => false
  | Raised _ => true
  end.

(** The channel or the copy tool raised somewhere in the trace. *)
Definition raised_in (evs : list event) : bool :=
  existsb (fun c => is_raised (snd c)) (ssh_calls evs)
  || existsb (fun c => is_raised (snd c)) (rsync_calls evs).

(** What [_ssh_command] logs for a reply. *)
Definition channel_log (r : reply) : list event :=
  match r with
  | Returned _ _ _ => []
  | Raised exc => [EvLog ERROR ("SSH command failed: " ++ str_exn exc)]
  end.

(** What [_ssh_command] hands to its caller for a reply. *)
Definition channel_outcome (r : reply) : outcome (Z * string * string) :=
  match r with
  | Returned ret out err => Val (ret, out, err)
  | Raised exc => Exn (SSHError ("SSH command failed: " ++ str_exn exc))
  end.

(** A verification entry reports success when it starts with the check mark. *)
Definition entry_passed (entry : string) : bool := prefix "✓" entry.

(** [needle] occurs in [hay]. *)
Definition Substring (needle hay : string) : Prop :=
  exists before after, hay = before ++ needle ++ after.

Section Replies.
Context `{Host}.

(** The reply of the channel to a command in a world, and the world after. *)
Definition ssh_reply (command : string) (timeout : Z) (w : world) : reply :=
  fst (run_command command timeout w).

Definition ssh_next (command : string) (timeout : Z) (w : world) : world :=
  snd (run_command command timeout w).

Definition rsync_reply (argv : list string) (timeout : Z) (w : world) : reply :=
  fst (subprocess_run argv timeout w).

Definition rsync_next (argv : list string) (timeout : Z) (w : world) : world :=
  snd (subprocess_run argv timeout w).
End Replies.

Section Sequences.
Context `{Host}.

(** The replies of the channel to [commands] issued one after the other. *)
Fixpoint ssh_replies (commands : list string) (timeout : Z) (w : world)
    : list reply :=
  match commands with
  | [] => []
  | command :: rest =>
      ssh_reply command timeout w
        :: ssh_replies rest timeout (ssh_next command timeout w)
  end.
End Sequences.

(** The entry a [check_block] appends for a reply. *)
Definition entry_for (passed missing failed : string) (r : reply) : string :=
  match r with
  | Returned ret _ _ => if ret =? 0 then passed else missing
  | Raised _ => failed
  end.

(** The four probes of [verify_deployment], in the order of the source. *)
Definition verification_probes (self : SlaveDeployer) : list string :=
  [ "test -d " ++ deploy_path self;
    "test -x " ++ deploy_path self ++ "/bisect-functions.sh";
    "test -f " ++ DEFAULT_STATE_DIR ++ "/protected-kernels.list";
    "test -d " ++ DEFAULT_STATE_DIR ].

(** The commands of [_copy_to_slave] and [deploy_library], as the source
    builds them. *)
Definition copy_mkdir_command (remote_path : string) : string :=
  "mkdir -p " ++ shlex_quote (dirname remote_path).

Definition deploy_mkdir_command (self : SlaveDeployer) : string :=
  "mkdir -p " ++ deploy_path self.

Definition chmod_command (self : SlaveDeployer) : string :=
  "chmod +x " ++ remote_library self.

(** An outcome a caller of [_copy_to_slave] may see: a boolean or a
    [TransferError]. *)
Definition copy_outcome (o : outcome bool) : Prop :=
  match o with
  | Val _ => True
  | Exn exc => is_TransferError exc = true /\ is_SSHError exc = false
  end.

(** The calls made when probes are tried in order and the first one that
    does not pass ends the sequence. *)
Fixpoint upto_first_failure (calls : list (string * Z * reply))
    : list (string * Z * reply) :=
  match calls with
  | [] => []
  | call :: rest =>
      if probe_ok (snd call) then call :: upto_first_failure rest else [call]
  end.

(** The calls of [commands] with the replies the channel gives to them in
    sequence. *)
Definition calls_in_sequence `{Host} (commands : list string) (timeout : Z)
    (w : world) : list (string * Z * reply) :=
  combine (map (fun c => (c, timeout)) commands)
          (ssh_replies commands timeout w).

(** ** The workflow read as a sequence of steps *)

(** The steps [deploy_full] runs before the verification. *)
Inductive step : Type := Connectivity | Directories | Library | Protection.

Definition run_step `{Host} (self : SlaveDeployer) (s : step) : M bool :=
  match s with
  | Connectivity => check_connectivity self
  | Directories => create_directories self
  | Library => deploy_library self
  | Protection => initialize_protection self
  end.

(** The steps that come before a step. *)
Definition earlier (s : step) : list step :=
  match s with
  | Connectivity => []
  | Directories => [Connectivity]
  | Library => [Connectivity; Directories]
  | Protection => [Connectivity; Directories; Library]
  end.

(** What [deploy_full] logs when a step returned false. *)
Definition abort_message (s : step) : string :=
  match s with
  | Connectivity => "Deployment failed: No SSH connectivity"
  | Directories => "Deployment failed: Could not create directories"
  | Library => "Deployment failed: Could not deploy library"
  | Protection => "Deployment failed: Could not initialize protection"
  end.

(** What [deploy_full] logs before its first step. *)
Definition opening : list event :=
  [ EvLog INFO banner; EvLog INFO "Starting slave deployment";
    EvLog INFO banner ].

(** [steps] run one after the other from [w], each returning true: the world
    and the events they leave. *)
Fixpoint all_pass `{Host} (self : SlaveDeployer) (steps : list step)
    (w : world) : option (world * list event) :=
  match steps with
  | [] => Some (w, [])
  | s :: rest =>
      let r := run_step self s w in
      match result r with
      | Val true =>
          match all_pass self rest (final r) with
          | Some (w', evs) => Some (w', (events r ++ evs)%list)
          | None => None
          end
      | _ => None
      end
  end.

(** An event that records an exception of the channel or of the copy tool. *)
Definition raises (ev : event) : bool :=
  match ev with
  | EvSsh _ _ r | EvRsync _ _ r => is_raised r
  | _ => false
  end.

(** ** Construction and the command line *)

(** [s.split('/')]. *)
Fixpoint split_slash_from (current s : string) : list string :=
  match s with
  | EmptyString => [current]
  | String c rest =>
      if is_slash c then current :: split_slash_from "" rest
      else split_slash_from (current ++ String c "") rest
  end.

Definition split_slash (s : string) : list string := split_slash_from "" s.

Fixpoint leading_slashes (s : string) : nat :=
  match s with
  | String c rest => if is_slash c then S (leading_slashes rest) else O
  | EmptyString => O
  end.

(** ['/'.join(parts)]. *)
Fixpoint join_slash (parts : list string) : string :=
  match parts with
  | [] => ""
  | [part] => part
  | part :: rest => part ++ "/" ++ join_slash rest
  end.

(** [str(Path(s))] on POSIX: the root is [//] for exactly two leading
    slashes and [/] for any other number of them; empty and [.] components
    are dropped; the empty path prints as [.]. *)
Definition Path_str (s : string) : string :=
  let root :=
    match leading_slashes s with
    | O => ""
    | 2%nat => "//"
    | _ => "/"
    end in
  let parts :=
    filter (fun part => negb (String.eqb part "") && negb (String.eqb part "."))
      (split_slash s) in
  match parts with
  | [] => if String.eqb root "" then "." else root
  | _ => root ++ join_slash parts
  end.

(** [SlaveDeployer.__init__].  [package_dir] stands for
    [str(Path(__file__).parent.parent)], which depends on where the module is
    installed; the [SSHClient] it builds is the host. *)
Definition __init__ (package_dir : string) (slave_host : string)
    (slave_user : string) (deploy_path : string)
    (local_lib_path : option string) : SlaveDeployer :=
  {| slave_host := slave_host;
     slave_user := slave_user;
     deploy_path := deploy_path;
     local_lib_path :=
       match local_lib_path with
       | Some given =>
           if negb (String.eqb given "") then Path_str given
           else path_div package_dir "lib"
       | None => path_div package_dir "lib"
       end |}.

(** The namespace [parser.parse_args()] returns. *)
Record Args : Type := {
  args_slave_host : string;
  args_user : string;
  args_deploy_path : string;
  args_check_only : bool;
  args_update_only : bool
}.

(** What [parser.parse_args()] ends with: the namespace of a command line it
    accepts, or the [SystemExit] with which [argparse] ends the process,
    after writing [output] (status 2 and a usage message for a missing or
    unknown argument, status 0 and the help for [-h]). *)
Inductive parse_result : Type :=
  | Namespace (args : Args)
  | SystemExit (status : Z) (output : list string).

(** [main] as the process runs it, [sys.exit(main())]: the lines written to
    the terminal, in order, and the exit status.  The command line is taken
    by what [parse_args] makes of it; [logging.basicConfig] has no part in
    the model. *)
Definition main `{Host} (package_dir : string) (parsed : parse_result)
    : M (list string * Z) :=
  match parsed with
  | SystemExit status output => pure (output, status)
  | Namespace args =>
  let deployer :=
    __init__ package_dir (args_slave_host args) (args_user args)
      (args_deploy_path args) None in
  if args_check_only args then
    deployed <- is_deployed deployer ;;
    if (deployed : bool) then
      '(success, checks) <- verify_deployment deployer ;;
      pure (["Slave is deployed"], if (success : bool) then 0 else 1)
    else pure (["Slave is NOT deployed"], 1)
  else if args_update_only args then
    ok <- update_library deployer ;;
    pure ([], if (ok : bool) then 0 else 1)
  else
    ok <- deploy_full deployer ;;
    pure ([], if (ok : bool) then 0 else 1)
  end.

(** The commands of [create_directories], as the source builds them. *)
Definition mkdir_commands (self : SlaveDeployer) : list string :=
  map (fun directory => "mkdir -p " ++ directory) (directories self).

(** What [deploy_full] logs after a verification that passed. *)
Definition closing : list event :=
  [ EvLog INFO banner; EvLog INFO "✓ Deployment completed successfully!";
    EvLog INFO banner ].

(** The text of a remote command starts with [test ]. *)
Definition is_probe (command : string) : bool := prefix "test " command.

(** A log line at the level [ERROR]. *)
Definition is_error_line (ev : event) : bool :=
  match ev with
  | EvLog ERROR _ => true
  | _ => false
  end.

(** The operation returned true (it neither returned false nor raised). *)
Definition returned_true (o : outcome bool) : bool :=
  match o with
  | Val true => true
  | _ => false
  end.

(** The world after [commands] have been issued one after the other. *)
Fixpoint ssh_after `{Host} (commands : list string) (timeout : Z) (w : world)
    : world :=
  match commands with
  | [] => w
  | command :: rest => ssh_after rest timeout (ssh_next command timeout w)
  end.

(** The remote commands of a complete deployment, with their timeouts, in
    the order of the source. *)
Definition workflow_commands (self : SlaveDeployer) : list (string * Z) :=
  ([("echo test", 300)]
     ++ map (fun c => (c, DEFAULT_SSH_TIMEOUT)) (mkdir_commands self)
     ++ [ (deploy_mkdir_command self, DEFAULT_SSH_TIMEOUT);
          (copy_mkdir_command (remote_library self), DEFAULT_SSH_TIMEOUT);
          (chmod_command self, DEFAULT_SSH_TIMEOUT);
          (init_command self, 60) ]
     ++ map (fun c => (c, DEFAULT_SSH_TIMEOUT)) (verification_probes self))%list.

(** The deployer [main] works on. *)
Definition main_deployer (package_dir : string) (args : Args) : SlaveDeployer :=
  __init__ package_dir (args_slave_host args) (args_user args)
    (args_deploy_path args) None.

(** The state directory is missing, the rest is in place. *)
Definition no_state_dir_host : Host :=
  scripted_host (ssh_failing "test -d /var" exit1) ok_reply all_present.

(** [--check-only --update-only] against the default paths. *)
Definition check_args : Args := {|
  args_slave_host := "slave.example";
  args_user := "root";
  args_deploy_path := DEFAULT_DEPLOY_PATH;
  args_check_only := true;
  args_update_only := true
|}.

(** A slave on which the protection is not yet initialized: the probes fail
    until the initialization command has run.  The state is whether it has;
    a probe changes nothing. *)
Definition fresh_slave_host : Host := {|
  world := bool;
  run_command := fun command _ initialized =>
    if prefix "source " command then (ok_reply, true)
    else if prefix "test " command then
      ((if initialized then ok_reply else exit1), initialized)
    else (ok_reply, initialized);
  subprocess_run := fun _ _ initialized => (ok_reply, initialized);
  path_exists := fun _ _ => Val true
|}.

(** * Facts *)

(** ** Text *)

Lemma prefix_app (n rest : string) : prefix n (n ++ rest) = true.
Proof.
  induction n as [|c n IH]; simpl.
  - now destruct rest.
  - destruct (ascii_dec c c) as [_|ne]; [exact IH | exfalso; apply ne; reflexivity].
Qed.

Lemma prefix_split (n h : string) :
  prefix n h = true -> exists rest, h = n ++ rest.
Proof.
  revert h; induction n as [|c n IH]; intros h Hp; simpl in *.
  - now exists h.
  - destruct h as [|c' h]; simpl in Hp; [discriminate|].
    destruct (ascii_dec c c') as [->|]; [|discriminate].
    destruct (IH _ Hp) as [rest ->]. now exists rest.
Qed.

Lemma contains_cons (needle : string) (c : ascii) (hay : string) :
  contains needle (String c hay)
  = if prefix needle (String c hay) then true else contains needle hay.
Proof. reflexivity. Qed.

Lemma contains_spec (needle hay : string) :
  contains needle hay = true <-> Substring needle hay.
Proof.
  split.
  - induction hay as [|c hay IH].
    + simpl. destruct needle; [intros _|intro Hc; discriminate Hc].
      exists "", "". reflexivity.
    + rewrite contains_cons.
      destruct (prefix needle (String c hay)) eqn:Hp; intros Hc.
      * destruct (prefix_split _ _ Hp) as [rest E].
        exists "", rest. exact E.
      * destruct (IH Hc) as (b & a & ->).
        exists (String c b), a. reflexivity.
  - intros (b & a & ->). induction b as [|c b IH].
    + change ("" ++ needle ++ a) with (needle ++ a).
      destruct (needle ++ a) eqn:E.
      * destruct needle; [reflexivity | discriminate E].
      * rewrite contains_cons, <- E, prefix_app. reflexivity.
    + change (String c b ++ needle ++ a) with (String c (b ++ needle ++ a)).
      rewrite contains_cons, IH.
      now destruct (prefix needle (String c (b ++ needle ++ a))).
Qed.

(** ** The channel *)

Section Channel.
Context `{Host}.

(** [_ssh_command] issues exactly one remote command; it passes a completed
    command on and turns whatever the client raises into an [SSHError]. *)
Lemma _ssh_command_run (command : string) (timeout : Z) (w : world) :
  _ssh_command command timeout w
  = Run (channel_outcome (ssh_reply command timeout w))
        (ssh_next command timeout w)
        (EvSsh command timeout (ssh_reply command timeout w)
           :: channel_log (ssh_reply command timeout w)).
Proof.
  unfold _ssh_command, try_except, ssh_client_run_command, ssh_reply, ssh_next.
  destruct (run_command command timeout w) as [[ret out err|exc] w'];
    reflexivity.
Qed.

Lemma subprocess_run_rsync_run (argv : list string) (timeout : Z) (w : world) :
  subprocess_run_rsync argv timeout w
  = Run (of_reply (rsync_reply argv timeout w))
        (rsync_next argv timeout w)
        [EvRsync argv timeout (rsync_reply argv timeout w)].
Proof.
  unfold subprocess_run_rsync, rsync_reply, rsync_next.
  destruct (subprocess_run argv timeout w) as [r w']; reflexivity.
Qed.

Lemma ssh_calls_app (xs ys : list event) :
  ssh_calls (xs ++ ys) = (ssh_calls xs ++ ssh_calls ys)%list.
Proof.
  induction xs as [|[] xs IH]; simpl; rewrite ?IH; reflexivity.
Qed.

Lemma rsync_calls_app (xs ys : list event) :
  rsync_calls (xs ++ ys) = (rsync_calls xs ++ rsync_calls ys)%list.
Proof.
  induction xs as [|[] xs IH]; simpl; rewrite ?IH; reflexivity.
Qed.

Lemma ssh_calls_channel_log (r : reply) : ssh_calls (channel_log r) = [].
Proof. destruct r; reflexivity. Qed.

Lemma rsync_calls_channel_log (r : reply) : rsync_calls (channel_log r) = [].
Proof. destruct r; reflexivity. Qed.
End Channel.

(** Unfolds the control operators of a method at a world and steps through
    its calls of [_ssh_command] and of the copy tool. *)
Ltac reduce_step :=
  cbn [result final events prepend channel_outcome channel_log of_reply
       is_SSHError is_TransferError is_TimeoutExpired negb andb].

Ltac reduce_run :=
  reduce_step;
  repeat (progress change (0 =? 0) with true; reduce_step).

Ltac run_method :=
  unfold try_or_return, try_except, bind, log, pure, raise, exists_;
  reduce_run;
  repeat (first [rewrite _ssh_command_run | rewrite subprocess_run_rsync_run];
          reduce_run).

(** ** check_connectivity *)

Section Connectivity.
Context `{Host}.
Variable self : SlaveDeployer.

(** C4.  [check_connectivity] returns true exactly when the probe
    [echo test] completes with exit code 0 and [test] occurs in its output.
    A probe that exits 0 without the token gives false, and so does a
    channel error; the probe is the one remote command issued. *)
Theorem check_connectivity_token (w : world) :
  let r := ssh_reply "echo test" 300 w in
  (result (check_connectivity self w) = Val true
   <-> exists out err, r = Returned 0 out err /\ Substring "test" out)
  /\ (forall out err, r = Returned 0 out err -> ~ Substring "test" out ->
      result (check_connectivity self w) = Val false)
  /\ (forall exc, r = Raised exc ->
      result (check_connectivity self w) = Val false)
  /\ ssh_calls (events (check_connectivity self w)) = [("echo test", 300, r)].
Proof.
  intros r. unfold check_connectivity. run_method. fold r.
  destruct r as [ret out err|exc];
    cbn [result final events prepend channel_outcome channel_log is_SSHError
         app ssh_calls].
  - destruct (Z.eqb_spec ret 0) as [->|ne]; cbn [andb].
    + destruct (contains "test" out) eqn:Hc;
        cbn [result events prepend app ssh_calls].
      * split; [split|split; [|split]]; try reflexivity; try discriminate.
        -- intros _. exists out, err. split; [reflexivity|].
           now apply contains_spec.
        -- intros o e [= <- <-] Hn. elim Hn. now apply contains_spec.
      * split; [split|split; [|split]]; try reflexivity; try discriminate.
        intros (o & e & [= <- <-] & Hs). apply contains_spec in Hs. congruence.
    + cbn [result events prepend app ssh_calls].
      split; [split|split; [|split]]; try reflexivity; try discriminate.
      intros (o & e & [= E _ _] & _). contradiction.
  - split; [split|split; [|split]]; try reflexivity; try discriminate.
    intros (o & e & E & _). discriminate E.
Qed.
End Connectivity.

(** ** Sequencing *)

Section Sequencing.
Context `{Host}.

Lemma bind_val {A B} (m : M A) (k : A -> M B) (w w' : world) (a : A)
    (evs : list event) :
  m w = Run (Val a) w' evs -> bind m k w = prepend evs (k a w').
Proof. intros E. unfold bind. rewrite E. reflexivity. Qed.

Lemma bind_log {B} (lvl : level) (msg : string) (k : unit -> M B) (w : world) :
  bind (log lvl msg) k w = prepend [EvLog lvl msg] (k tt w).
Proof. reflexivity. Qed.

Lemma bind_result {A B} (m : M A) (k : A -> M B) (w : world) (a : A) :
  result (m w) = Val a ->
  bind m k w = prepend (events (m w)) (k a (final (m w))).
Proof. intros E. unfold bind. rewrite E. reflexivity. Qed.

Lemma result_bind {A B} (m : M A) (k : A -> M B) (w : world) :
  result (bind m k w)
  = match result (m w) with
    | Val a => result (k a (final (m w)))
    | Exn e => Exn e
    end.
Proof. unfold bind. now destruct (result (m w)). Qed.
End Sequencing.

(** ** verify_deployment *)

Section Verification.
Context `{Host}.
Variable self : SlaveDeployer.

Lemma check_block_run (command passed missing failed : string)
    (all_passed : bool) (checks : list string) (w : world) :
  check_block command passed missing failed (all_passed, checks) w
  = Run (Val (all_passed && probe_ok (ssh_reply command DEFAULT_SSH_TIMEOUT w),
              (checks ++ [entry_for passed missing failed
                            (ssh_reply command DEFAULT_SSH_TIMEOUT w)])%list))
        (ssh_next command DEFAULT_SSH_TIMEOUT w)
        (EvSsh command DEFAULT_SSH_TIMEOUT
           (ssh_reply command DEFAULT_SSH_TIMEOUT w)
           :: channel_log (ssh_reply command DEFAULT_SSH_TIMEOUT w)).
Proof.
  unfold check_block. run_method.
  destruct (ssh_reply command DEFAULT_SSH_TIMEOUT w) as [ret out err|exc];
    cbn [result final events prepend channel_outcome channel_log probe_ok
         entry_for is_SSHError app].
  - destruct (ret =? 0); cbn [result final events prepend app];
      rewrite ?andb_true_r, ?andb_false_r, ?app_nil_r; reflexivity.
  - rewrite andb_false_r. reflexivity.
Qed.

Lemma log_checks_run (checks : list string) (w : world) :
  log_checks checks w
  = Run (Val tt) w (map (fun check => EvLog INFO ("  " ++ check)) checks).
Proof.
  induction checks as [|check rest IH]; [reflexivity|].
  cbn [log_checks map]. rewrite bind_log, IH. reflexivity.
Qed.

Lemma ssh_calls_logs (checks : list string) :
  ssh_calls (map (fun check => EvLog INFO ("  " ++ check)) checks) = [].
Proof. induction checks; [reflexivity | exact IHchecks]. Qed.

Lemma rsync_calls_logs (checks : list string) :
  rsync_calls (map (fun check => EvLog INFO ("  " ++ check)) checks) = [].
Proof. induction checks; [reflexivity | exact IHchecks]. Qed.

(** What a run of [verify_deployment] asks of the host and returns. *)
Lemma verify_deployment_probes (w : world) :
  let replies := ssh_replies (verification_probes self) DEFAULT_SSH_TIMEOUT w in
  ssh_calls (events (verify_deployment self w))
    = calls_in_sequence (verification_probes self) DEFAULT_SSH_TIMEOUT w
  /\ rsync_calls (events (verify_deployment self w)) = []
  /\ exists all_passed checks,
       result (verify_deployment self w) = Val (all_passed, checks)
       /\ length checks = 4%nat
       /\ map entry_passed checks = map probe_ok replies
       /\ all_passed = forallb entry_passed checks.
Proof.
  unfold verify_deployment, verification_probes, calls_in_sequence.
  cbn [ssh_replies].
  rewrite bind_log; cbv beta.
  erewrite bind_val by apply check_block_run; cbv beta iota.
  set (r1 := ssh_reply _ _ w). set (w1 := ssh_next _ _ w).
  erewrite bind_val by apply check_block_run; cbv beta iota.
  set (r2 := ssh_reply _ _ w1). set (w2 := ssh_next _ _ w1).
  erewrite bind_val by apply check_block_run; cbv beta iota.
  set (r3 := ssh_reply _ _ w2). set (w3 := ssh_next _ _ w2).
  erewrite bind_val by apply check_block_run; cbv beta iota.
  set (r4 := ssh_reply _ _ w3). set (w4 := ssh_next _ _ w3).
  erewrite bind_val by apply log_checks_run; cbv beta.
  unfold pure. cbn [prepend result final events map combine length].
  split; [|split].
  - cbn [app ssh_calls].
    rewrite !ssh_calls_app, !ssh_calls_channel_log. cbn [app ssh_calls].
    rewrite !ssh_calls_app, !ssh_calls_channel_log. cbn [app ssh_calls].
    rewrite !ssh_calls_app, !ssh_calls_channel_log. cbn [app ssh_calls].
    rewrite !ssh_calls_app, !ssh_calls_channel_log, ssh_calls_logs.
    reflexivity.
  - cbn [app rsync_calls].
    rewrite !rsync_calls_app, !rsync_calls_channel_log. cbn [app rsync_calls].
    rewrite !rsync_calls_app, !rsync_calls_channel_log. cbn [app rsync_calls].
    rewrite !rsync_calls_app, !rsync_calls_channel_log. cbn [app rsync_calls].
    rewrite !rsync_calls_app, !rsync_calls_channel_log, rsync_calls_logs.
    reflexivity.
  - eexists. eexists. split; [reflexivity|].
    clearbody r1 r2 r3 r4. clear.
    destruct r1 as [k1 ? ?|?]; [destruct (Z.eqb_spec k1 0)|];
    (destruct r2 as [k2 ? ?|?]; [destruct (Z.eqb_spec k2 0)|]);
    (destruct r3 as [k3 ? ?|?]; [destruct (Z.eqb_spec k3 0)|]);
    (destruct r4 as [k4 ? ?|?]; [destruct (Z.eqb_spec k4 0)|]);
    subst; cbn [probe_ok entry_for app length map forallb andb];
    rewrite ?Z.eqb_refl;
    repeat match goal with
           | ne : ?k <> 0 |- _ => apply Z.eqb_neq in ne; rewrite ne; clear ne
           end;
    repeat split.
Qed.

(** C3.  [verify_deployment] issues its four probes one after the other
    whatever the replies are (an exit code other than 0 or a channel error
    stops nothing), returns four entries, one per probe and marked as passed
    exactly when its probe exited 0, and its flag is the conjunction of the
    four. *)
Theorem verify_deployment_all_four (w : world) :
  let replies := ssh_replies (verification_probes self) DEFAULT_SSH_TIMEOUT w in
  ssh_calls (events (verify_deployment self w))
    = combine (map (fun c => (c, DEFAULT_SSH_TIMEOUT)) (verification_probes self))
              replies
  /\ length replies = 4%nat
  /\ exists all_passed checks,
       result (verify_deployment self w) = Val (all_passed, checks)
       /\ length checks = 4%nat
       /\ map entry_passed checks = map probe_ok replies
       /\ all_passed = forallb entry_passed checks
       /\ all_passed = forallb probe_ok replies.
Proof.
  intros replies.
  destruct (verify_deployment_probes w)
    as (Hcalls & _ & all_passed & checks & Hres & Hlen & Hmap & Hall).
  fold replies in Hmap.
  split; [exact Hcalls|]. split; [reflexivity|].
  exists all_passed, checks. repeat split; try assumption.
  rewrite Hall. clear - Hmap. clearbody replies. revert checks Hmap.
  induction replies as [|r rs IH]; intros [|c cs] Hmap; try discriminate;
    [reflexivity|].
  cbn [map forallb] in *. injection Hmap as -> Hcs. f_equal. now apply IH.
Qed.
End Verification.

(** Case analysis on the next reply a run depends on, and on the exit code
    tests made on it. *)
Ltac next_reply :=
  match goal with
  | |- context [channel_outcome (ssh_reply ?c ?t ?w)] =>
      let E := fresh "Hreply" in
      destruct (ssh_reply c t w) as [? ? ?|?] eqn:E
  | |- context [of_reply (rsync_reply ?a ?t ?w)] =>
      let E := fresh "Hreply" in
      destruct (rsync_reply a t w) as [? ? ?|?] eqn:E
  | |- context [?z =? 0] =>
      let E := fresh "Hcode" in
      destruct (z =? 0) eqn:E
  end.

Ltac run_cases :=
  run_method;
  repeat (next_reply; run_method).

(** Finds an event in a trace built from conses and appends. *)
Ltac in_trace :=
  repeat first [ left; reflexivity | right | apply in_or_app; right ].

Ltac read_trace :=
  cbn [result final events prepend app ssh_calls rsync_calls raised_in
       existsb snd is_raised orb probe_ok].

Section Steps.
Context `{Host}.
Variable self : SlaveDeployer.

Lemma check_connectivity_returns (w : world) :
  (exists b, result (check_connectivity self w) = Val b)
  /\ (raised_in (events (check_connectivity self w)) = true ->
      result (check_connectivity self w) = Val false).
Proof.
  unfold check_connectivity. run_cases.
  - destruct (contains "test" stdout); read_trace; split; eauto; discriminate.
  - read_trace; split; eauto.
  - read_trace; split; eauto.
Qed.

Lemma initialize_protection_returns (w : world) :
  (exists b, result (initialize_protection self w) = Val b)
  /\ (raised_in (events (initialize_protection self w)) = true ->
      result (initialize_protection self w) = Val false).
Proof.
  unfold initialize_protection. run_cases; read_trace; split; eauto; discriminate.
Qed.

Lemma create_directories_returns (w : world) :
  (exists b, result (create_directories self w) = Val b)
  /\ (raised_in (events (create_directories self w)) = true ->
      result (create_directories self w) = Val false).
Proof.
  unfold create_directories, directories. cbn [create_directories_loop].
  run_cases; read_trace; split; eauto; discriminate.
Qed.
End Steps.

(** ** _copy_to_slave *)

Section Copy.
Context `{Host}.
Variable self : SlaveDeployer.

(** The run of [_copy_to_slave], by the replies to its two calls. *)
Lemma _copy_to_slave_run (local_path remote_path : string) (w : world) :
  let mk := ssh_reply (copy_mkdir_command remote_path) DEFAULT_SSH_TIMEOUT w in
  let w1 := ssh_next (copy_mkdir_command remote_path) DEFAULT_SSH_TIMEOUT w in
  let argv := rsync_cmd self local_path remote_path in
  let cp := rsync_reply argv 60 w1 in
  let run := _copy_to_slave self local_path remote_path w in
  match mk with
  | Raised exc =>
      (exists msg, result run = Exn (TransferError msg))
      /\ final run = w1 /\ rsync_calls (events run) = []
  | Returned ret _ _ =>
      if ret =? 0 then
        final run = rsync_next argv 60 w1
        /\ rsync_calls (events run) = [(argv, 60, cp)]
        /\ match cp with
           | Raised exc => exists msg, result run = Exn (TransferError msg)
           | Returned returncode _ _ => result run = Val (returncode =? 0)
           end
      else
        result run = Val false /\ final run = w1
        /\ rsync_calls (events run) = []
  end
  /\ ssh_calls (events run)
     = [(copy_mkdir_command remote_path, DEFAULT_SSH_TIMEOUT, mk)].
Proof.
  unfold _copy_to_slave, copy_mkdir_command. cbv zeta. run_cases; read_trace;
    repeat split; eauto.
  all: destruct e; cbn [is_TimeoutExpired]; run_method; read_trace; eauto.
Qed.

(** An exception leaves [_copy_to_slave] only as a [TransferError], and only
    when the channel or the copy tool raised. *)
Lemma _copy_to_slave_exn (local_path remote_path : string) (w : world)
    (exc : exn) :
  result (_copy_to_slave self local_path remote_path w) = Exn exc ->
  is_TransferError exc = true
  /\ raised_in (events (_copy_to_slave self local_path remote_path w)) = true.
Proof.
  intros Hexn.
  pose proof (_copy_to_slave_run local_path remote_path w) as R. cbv zeta in R.
  unfold raised_in.
  destruct R as [R Hs]. rewrite Hs. cbn [existsb snd orb].
  destruct (ssh_reply (copy_mkdir_command remote_path) DEFAULT_SSH_TIMEOUT w)
    as [ret out err|e].
  - destruct (ret =? 0).
    + destruct R as (_ & Hc & Hr). rewrite Hc. cbn [existsb snd orb is_raised].
      destruct (rsync_reply _ _ _) as [rc o e|e].
      * rewrite Hexn in Hr. discriminate Hr.
      * destruct Hr as [msg Hr]. rewrite Hexn in Hr.
        injection Hr as ->. now split.
    + destruct R as (Hr & _). rewrite Hexn in Hr. discriminate Hr.
  - destruct R as ((msg & Hr) & _). rewrite Hexn in Hr.
    injection Hr as ->. now split.
Qed.

(** C8.  In [_copy_to_slave]: a non-zero exit of the remote [mkdir] gives
    false and the copy tool is not started; a non-zero exit of the copy tool
    gives false, not an exception; an exception leaves the operation only
    when the channel or the copy tool raised (a timeout included), and it is
    a [TransferError].  A non-zero exit of the copy tool makes
    [deploy_library] return false. *)
Theorem copy_to_slave_failures (w : world) :
  (forall local_path remote_path ret out err,
      ssh_reply (copy_mkdir_command remote_path) DEFAULT_SSH_TIMEOUT w
        = Returned ret out err ->
      ret <> 0 ->
      result (_copy_to_slave self local_path remote_path w) = Val false
      /\ rsync_calls (events (_copy_to_slave self local_path remote_path w)) = [])
  /\ (forall local_path remote_path out err returncode out' err',
      ssh_reply (copy_mkdir_command remote_path) DEFAULT_SSH_TIMEOUT w
        = Returned 0 out err ->
      rsync_reply (rsync_cmd self local_path remote_path) 60
        (ssh_next (copy_mkdir_command remote_path) DEFAULT_SSH_TIMEOUT w)
        = Returned returncode out' err' ->
      returncode <> 0 ->
      result (_copy_to_slave self local_path remote_path w) = Val false)
  /\ (forall local_path remote_path exc,
      result (_copy_to_slave self local_path remote_path w) = Exn exc ->
      is_TransferError exc = true
      /\ raised_in (events (_copy_to_slave self local_path remote_path w)) = true)
  /\ (forall out err returncode out' err',
      path_exists (local_lib_path self) w = Val true ->
      path_exists (library_file self) w = Val true ->
      ssh_reply (deploy_mkdir_command self) DEFAULT_SSH_TIMEOUT w
        = Returned 0 out err ->
      let w1 := ssh_next (deploy_mkdir_command self) DEFAULT_SSH_TIMEOUT w in
      probe_ok (ssh_reply (copy_mkdir_command (remote_library self))
                  DEFAULT_SSH_TIMEOUT w1) = true ->
      rsync_reply (rsync_cmd self (library_file self) (remote_library self)) 60
        (ssh_next (copy_mkdir_command (remote_library self))
           DEFAULT_SSH_TIMEOUT w1)
        = Returned returncode out' err' ->
      returncode <> 0 ->
      result (deploy_library self w) = Val false
      /\ map fst (ssh_calls (events (deploy_library self w)))
         = [(deploy_mkdir_command self, DEFAULT_SSH_TIMEOUT);
            (copy_mkdir_command (remote_library self), DEFAULT_SSH_TIMEOUT)]).
Proof.
  split; [|split; [|split]].
  - intros lp rp ret out err Hmk ne.
    pose proof (_copy_to_slave_run lp rp w) as R. cbv zeta in R.
    rewrite Hmk in R. apply Z.eqb_neq in ne. rewrite ne in R.
    destruct R as [(Hr & _ & Hc) _]. now split.
  - intros lp rp out err rc out' err' Hmk Hcp ne.
    pose proof (_copy_to_slave_run lp rp w) as R. cbv zeta in R.
    rewrite Hmk, Hcp in R. cbn [Z.eqb] in R.
    destruct R as [(_ & _ & Hr) _]. rewrite Hr.
    apply Z.eqb_neq in ne. now rewrite ne.
  - intros lp rp exc Hexn. exact (_copy_to_slave_exn lp rp w exc Hexn).
  - intros out err rc out' err' Hlib Hfile Hmk w1 Hmk2 Hcp ne.
    pose proof (_copy_to_slave_run (library_file self) (remote_library self) w1)
      as R. cbv zeta in R.
    destruct (ssh_reply (copy_mkdir_command (remote_library self))
                DEFAULT_SSH_TIMEOUT w1) as [ret o e|e] eqn:E2;
      [|discriminate Hmk2].
    cbn [probe_ok] in Hmk2. rewrite Hmk2 in R. fold w1 in Hcp.
    rewrite Hcp in R. destruct R as [(Hf & Hc & Hr) Hs].
    apply Z.eqb_neq in ne. rewrite ne in Hr.
    unfold deploy_library. run_method. rewrite Hlib. run_method.
    rewrite Hfile. run_method.
    unfold deploy_mkdir_command in *. rewrite Hmk. run_method. fold w1.
    rewrite Hr. run_method. read_trace.
    split; [reflexivity|].
    rewrite ssh_calls_app, Hs. reflexivity.
Qed.
End Copy.

Section CopyErrors.
Context `{Host}.
Variable self : SlaveDeployer.

(** C10.  When the channel raises on the remote [mkdir] of
    [_copy_to_slave], the operation raises a [TransferError]; and whatever
    happens, its caller sees a boolean or a [TransferError], never an
    [SSHError]. *)
Theorem copy_to_slave_wraps_channel_error (local_path remote_path : string)
    (w : world) :
  (forall exc,
      ssh_reply (copy_mkdir_command remote_path) DEFAULT_SSH_TIMEOUT w
        = Raised exc ->
      result (_copy_to_slave self local_path remote_path w)
        = Exn (TransferError
                 ("File transfer error: SSH command failed: " ++ str_exn exc)))
  /\ copy_outcome (result (_copy_to_slave self local_path remote_path w)).
Proof.
  split.
  - intros exc Hmk. unfold _copy_to_slave. run_method.
    fold (copy_mkdir_command remote_path). rewrite Hmk. run_method.
    reflexivity.
  - destruct (result (_copy_to_slave self local_path remote_path w))
      as [b|exc] eqn:E; [exact I|].
    destruct (_copy_to_slave_exn self _ _ _ _ E) as [Ht _].
    destruct exc; try discriminate Ht. now split.
Qed.
End CopyErrors.

(** ** deploy_library *)

Section Library.
Context `{Host}.
Variable self : SlaveDeployer.


(** The run of [deploy_library] once the copy has returned true: the result
    is true whatever the reply to [chmod] is. *)
Lemma deploy_library_after_copy (w : world) :
  let w1 := ssh_next (deploy_mkdir_command self) DEFAULT_SSH_TIMEOUT w in
  let copy := _copy_to_slave self (library_file self) (remote_library self) w1 in
  let chmod := ssh_reply (chmod_command self) DEFAULT_SSH_TIMEOUT (final copy) in
  path_exists (local_lib_path self) w = Val true ->
  path_exists (library_file self) w = Val true ->
  probe_ok (ssh_reply (deploy_mkdir_command self) DEFAULT_SSH_TIMEOUT w) = true ->
  result copy = Val true ->
  result (deploy_library self w) = Val true
  /\ ssh_calls (events (deploy_library self w))
     = [(deploy_mkdir_command self, DEFAULT_SSH_TIMEOUT,
         ssh_reply (deploy_mkdir_command self) DEFAULT_SSH_TIMEOUT w);
        (copy_mkdir_command (remote_library self), DEFAULT_SSH_TIMEOUT,
         ssh_reply (copy_mkdir_command (remote_library self))
           DEFAULT_SSH_TIMEOUT w1);
        (chmod_command self, DEFAULT_SSH_TIMEOUT, chmod)]
  /\ (probe_ok chmod = false ->
      exists msg, In (EvLog WARNING msg) (events (deploy_library self w))).
Proof.
  intros w1 copy chmod Hlib Hfile Hmk Hcopy.
  pose proof (_copy_to_slave_run self (library_file self) (remote_library self) w1)
    as [_ Hs]. fold copy in Hs.
  unfold chmod_command, deploy_mkdir_command in *.
  unfold deploy_library. run_method. rewrite Hlib. run_method.
  rewrite Hfile. run_method.
  destruct (ssh_reply ("mkdir -p " ++ deploy_path self) DEFAULT_SSH_TIMEOUT w)
    as [ret out err|exc]; [|discriminate Hmk].
  cbn [probe_ok] in Hmk. run_method. rewrite Hmk. run_method.
  fold w1. fold copy. rewrite Hcopy. run_method. fold chmod.
  destruct chmod as [ret' out' err'|exc]; run_method.
  - destruct (ret' =? 0) eqn:Hret; run_method; read_trace;
      rewrite !ssh_calls_app, Hs; read_trace.
    + repeat split. intros Hne. rewrite Hret in Hne. discriminate Hne.
    + repeat split. intros _. eexists. in_trace.
  - read_trace. rewrite !ssh_calls_app, Hs. read_trace.
    repeat split. intros _. eexists. in_trace.
Qed.

(** C6.  Once the copy has succeeded, a failing [chmod] (a non-zero exit
    code, or a channel error on dispatching it) leaves [deploy_library]
    returning true; the [chmod] was issued and a warning was logged. *)
Theorem deploy_library_chmod_not_fatal (w : world) :
  let w1 := ssh_next (deploy_mkdir_command self) DEFAULT_SSH_TIMEOUT w in
  let copy := _copy_to_slave self (library_file self) (remote_library self) w1 in
  let chmod := ssh_reply (chmod_command self) DEFAULT_SSH_TIMEOUT (final copy) in
  path_exists (local_lib_path self) w = Val true ->
  path_exists (library_file self) w = Val true ->
  probe_ok (ssh_reply (deploy_mkdir_command self) DEFAULT_SSH_TIMEOUT w) = true ->
  result copy = Val true ->
  probe_ok chmod = false ->
  result (deploy_library self w) = Val true
  /\ In (chmod_command self, DEFAULT_SSH_TIMEOUT, chmod)
        (ssh_calls (events (deploy_library self w)))
  /\ exists msg, In (EvLog WARNING msg) (events (deploy_library self w)).
Proof.
  intros w1 copy chmod Hlib Hfile Hmk Hcopy Hchmod.
  destruct (deploy_library_after_copy w Hlib Hfile Hmk Hcopy)
    as (Hres & Hcalls & Hwarn).
  split; [exact Hres|]. split; [|exact (Hwarn Hchmod)].
  rewrite Hcalls. right. right. left. reflexivity.
Qed.
End Library.

(** ** is_deployed *)

Section Deployed.
Context `{Host}.
Variable self : SlaveDeployer.

Lemma is_deployed_loop_run (checks : list string) (w : world) :
  result (is_deployed_loop checks w)
    = Val (forallb probe_ok (ssh_replies checks DEFAULT_SSH_TIMEOUT w))
  /\ ssh_calls (events (is_deployed_loop checks w))
     = upto_first_failure (calls_in_sequence checks DEFAULT_SSH_TIMEOUT w).
Proof.
  revert w. induction checks as [|check rest IH]; intros w.
  - split; reflexivity.
  - unfold calls_in_sequence in *.
    cbn [is_deployed_loop ssh_replies map combine forallb upto_first_failure snd].
    run_method.
    destruct (ssh_reply check DEFAULT_SSH_TIMEOUT w) as [ret out err|exc];
      run_method; cbn [probe_ok andb].
    + destruct (ret =? 0); run_method; read_trace.
      * destruct (IH (ssh_next check DEFAULT_SSH_TIMEOUT w)) as [Hr Hc].
        split; [exact Hr | now rewrite Hc].
      * split; reflexivity.
    + read_trace. split; reflexivity.
Qed.

(** C7.  [is_deployed] tries three probes in order (the deploy directory,
    the executable library, the protection marker: the probes of
    [verify_deployment] without the last one, on the state directory), stops
    at the first one that exits non-zero or on which the channel raises, and
    returns true exactly when all three exit 0. *)
Theorem is_deployed_fail_fast (w : world) :
  let replies := ssh_replies (critical_checks self) DEFAULT_SSH_TIMEOUT w in
  critical_checks self = removelast (verification_probes self)
  /\ length (critical_checks self) = 3%nat
  /\ ssh_calls (events (is_deployed self w))
     = upto_first_failure
         (calls_in_sequence (critical_checks self) DEFAULT_SSH_TIMEOUT w)
  /\ result (is_deployed self w) = Val (forallb probe_ok replies)
  /\ (result (is_deployed self w) = Val true <->
      forall r, In r replies -> exists out err, r = Returned 0 out err).
Proof.
  intros replies.
  destruct (is_deployed_loop_run (critical_checks self) w) as [Hres Hcalls].
  fold (is_deployed self) in Hres, Hcalls. fold replies in Hres.
  split; [reflexivity|]. split; [reflexivity|]. split; [exact Hcalls|].
  split; [exact Hres|]. rewrite Hres. clearbody replies. split.
  - intros [= Hall]. rewrite forallb_forall in Hall. intros r Hin.
    specialize (Hall r Hin). destruct r as [ret out err|exc];
      [|discriminate Hall].
    cbn [probe_ok] in Hall. apply Z.eqb_eq in Hall. subst. now exists out, err.
  - intros Hall. f_equal. apply forallb_forall. intros r Hin.
    destruct (Hall r Hin) as (out & err & ->). reflexivity.
Qed.
End Deployed.

(** ** Exceptions in a trace *)

Section Raised.
Context `{Host}.
Variable self : SlaveDeployer.

Lemma raised_in_existsb (evs : list event) :
  raised_in evs = existsb raises evs.
Proof.
  unfold raised_in. induction evs as [|[c t r|a t r|p b|l m] evs IH];
    cbn [ssh_calls rsync_calls existsb raises snd orb] in *;
    rewrite <- ?IH; try reflexivity.
  - now rewrite orb_assoc.
  - rewrite !orb_assoc. f_equal. apply orb_comm.
Qed.

Lemma raised_in_app (xs ys : list event) :
  raised_in (xs ++ ys) = raised_in xs || raised_in ys.
Proof. rewrite !raised_in_existsb. apply existsb_app. Qed.

Lemma raised_in_cons (ev : event) (evs : list event) :
  raised_in (ev :: evs) = raises ev || raised_in evs.
Proof. rewrite !raised_in_existsb. reflexivity. Qed.

(** [_copy_to_slave] returns a boolean exactly when nothing raised. *)
Lemma _copy_to_slave_quiet (local_path remote_path : string) (w : world)
    (b : bool) :
  result (_copy_to_slave self local_path remote_path w) = Val b ->
  raised_in (events (_copy_to_slave self local_path remote_path w)) = false.
Proof.
  intros Hres.
  pose proof (_copy_to_slave_run self local_path remote_path w) as [R Hs].
  cbv zeta in R. unfold raised_in. rewrite Hs. cbn [existsb snd orb].
  destruct (ssh_reply (copy_mkdir_command remote_path) DEFAULT_SSH_TIMEOUT w)
    as [ret out err|exc].
  - destruct (ret =? 0).
    + destruct R as (_ & Hc & Hr). rewrite Hc. cbn [existsb snd orb is_raised].
      destruct (rsync_reply _ _ _) as [rc o e|e]; [reflexivity|].
      destruct Hr as [msg Hr]. rewrite Hres in Hr. discriminate Hr.
    + destruct R as (_ & _ & Hc). rewrite Hc. reflexivity.
  - destruct R as ((msg & Hr) & _). rewrite Hres in Hr. discriminate Hr.
Qed.
End Raised.

Ltac read_raised :=
  rewrite ?raised_in_cons, ?raised_in_app;
  cbn [raises is_raised orb];
  rewrite ?raised_in_cons, ?raised_in_app;
  cbn [raises is_raised orb];
  change (raised_in []) with false;
  rewrite ?orb_false_r.

Section LibraryReturns.
Context `{Host}.
Variable self : SlaveDeployer.

(** The only exception [deploy_library] lets through is the one a local
    existence check raised, before any remote call.  An exception of the
    channel or of the copy tool makes it return false, unless it is the
    [chmod], issued after a successful copy, that raised. *)
Lemma deploy_library_returns (w : world) :
  let w1 := ssh_next (deploy_mkdir_command self) DEFAULT_SSH_TIMEOUT w in
  let copy := _copy_to_slave self (library_file self) (remote_library self) w1 in
  let chmod := ssh_reply (chmod_command self) DEFAULT_SSH_TIMEOUT (final copy) in
  (forall exc,
      result (deploy_library self w) = Exn exc ->
      raised_in (events (deploy_library self w)) = false
      /\ ssh_calls (events (deploy_library self w)) = []
      /\ rsync_calls (events (deploy_library self w)) = []
      /\ final (deploy_library self w) = w
      /\ (path_exists (local_lib_path self) w = Exn exc
          \/ (path_exists (local_lib_path self) w = Val true
              /\ path_exists (library_file self) w = Exn exc)))
  /\ (raised_in (events (deploy_library self w)) = true ->
      result (deploy_library self w) = Val false
      \/ (result (deploy_library self w) = Val true
          /\ result copy = Val true
          /\ is_raised chmod = true)).
Proof.
  intros w1 copy chmod.
  unfold chmod_command, deploy_mkdir_command in *.
  unfold deploy_library. run_method.
  destruct (path_exists (local_lib_path self) w) as [[|]|e1]; run_method;
    [ | split; [intros e E; discriminate E | intros _; now left]
      | split; [intros e [= <-]; read_trace; repeat split; now left
               | read_trace; discriminate] ].
  destruct (path_exists (library_file self) w) as [[|]|e2]; run_method;
    [ | split; [intros e E; discriminate E | intros _; now left]
      | split; [intros e [= <-]; read_trace; repeat split; right; now split
               | read_trace; discriminate] ].
  destruct (ssh_reply ("mkdir -p " ++ deploy_path self) DEFAULT_SSH_TIMEOUT w)
    as [ret out err|exc]; run_method;
    [|split; [intros e E; discriminate E | intros _; now left]].
  destruct (ret =? 0); run_method;
    [|split; [intros e E; discriminate E | intros _; now left]].
  fold w1. fold copy.
  pose proof (_copy_to_slave_exn self (library_file self)
                (remote_library self) w1) as Hout.
  pose proof (_copy_to_slave_quiet self (library_file self)
                (remote_library self) w1) as Hquiet.
  fold copy in Hout, Hquiet.
  destruct (result copy) as [[|]|exc] eqn:Hcopy; run_method.
  - fold chmod. specialize (Hquiet true eq_refl).
    destruct chmod as [ret' out' err'|exc]; run_method.
    + destruct (ret' =? 0); run_method;
        (split; [intros e E; discriminate E|]);
        read_raised; rewrite Hquiet; discriminate.
    + split; [intros e E; discriminate E|]. intros _. right. repeat split.
  - split; [intros e E; discriminate E | intros _; now left].
  - destruct (Hout exc eq_refl) as [Ht _]. rewrite Ht. run_method.
    split; [intros e E; discriminate E | intros _; now left].
Qed.

(** [deploy_library] ends with a boolean or with an exception. *)
Lemma deploy_library_ends (w : world) :
  (exists b, result (deploy_library self w) = Val b)
  \/ (exists exc, result (deploy_library self w) = Exn exc).
Proof.
  destruct (result (deploy_library self w)) as [b|exc]; eauto.
Qed.

Lemma verify_deployment_returns (w : world) :
  exists all_passed checks,
    result (verify_deployment self w) = Val (all_passed, checks)
    /\ (raised_in (events (verify_deployment self w)) = true ->
        all_passed = false
        /\ existsb (fun c => negb (entry_passed c)) checks = true).
Proof.
  destruct (verify_deployment_probes self w)
    as (Hcalls & Hrsync & all_passed & checks & Hres & _ & Hmap & Hall).
  exists all_passed, checks. split; [exact Hres|].
  intros Hraised. unfold raised_in in Hraised.
  rewrite Hcalls, Hrsync in Hraised. unfold calls_in_sequence in Hraised.
  cbn [existsb orb] in Hraised. rewrite orb_false_r in Hraised.
  assert (Hfb : forallb entry_passed checks = false).
  { clear - Hmap Hraised. revert Hraised. generalize dependent checks.
    generalize (verification_probes self) as commands. intros commands.
    revert w.
    induction commands as [|c cs IH]; intros w checks Hmap Hraised;
      cbn [ssh_replies map combine existsb snd] in *; [discriminate|].
    destruct checks as [|e es]; [discriminate|].
    cbn [map forallb] in *. injection Hmap as He Hes. rewrite He.
    destruct (ssh_reply c DEFAULT_SSH_TIMEOUT w) as [ret out err|exc];
      cbn [is_raised probe_ok orb andb] in *; [|reflexivity].
    rewrite (IH _ _ Hes Hraised). apply andb_false_r. }
  split; [congruence|].
  clear - Hfb. induction checks as [|c cs IH]; [discriminate|].
  cbn [forallb existsb] in *.
  destruct (entry_passed c); cbn [negb andb orb] in *;
    [now apply IH | reflexivity].
Qed.
End LibraryReturns.

(** ** deploy_full *)

Lemma Some_pair_eq {A B} (a c : A) (b d : B) :
  Some (a, b) = Some (c, d) -> a = c /\ b = d.
Proof. intros E. split; congruence. Qed.

Section AllPass.
Context `{Host}.
Variable self : SlaveDeployer.

Lemma all_pass_nil (w : world) : all_pass self [] w = Some (w, []).
Proof. reflexivity. Qed.

Lemma all_pass_cons (s : step) (rest : list step) (w : world) :
  all_pass self (s :: rest) w
  = match result (run_step self s w) with
    | Val true =>
        match all_pass self rest (final (run_step self s w)) with
        | Some (w', evs) => Some (w', (events (run_step self s w) ++ evs)%list)
        | None => None
        end
    | _ => None
    end.
Proof. reflexivity. Qed.
End AllPass.

(** Reads a hypothesis on [all_pass] as the results of the steps it ran. *)
Ltac steps_passed H :=
  unfold earlier in H;
  rewrite ?all_pass_cons, ?all_pass_nil in H;
  repeat match type of H with
         | context [match result ?r with _ => _ end] =>
             let E := fresh "Hpass" in
             destruct (result r) as [[|]|] eqn:E; try discriminate H;
             cbv beta iota in H
         end;
  apply Some_pair_eq in H; destruct H as [<- <-].

Section Workflow.
Context `{Host}.
Variable self : SlaveDeployer.

(** C1.  [deploy_full] stops at the first step that returns false: when the
    steps before [s] have returned true and [s] returns false, the run is
    over with the result false, the world as [s] left it, and a trace that
    ends with the events of [s] and one error line.  No later step adds an
    event or touches the world. *)
Theorem deploy_full_stops_at_failure (s : step) (w w1 w2 : world)
    (evs1 evs2 : list event) :
  all_pass self (earlier s) w = Some (w1, evs1) ->
  run_step self s w1 = Run (Val false) w2 evs2 ->
  deploy_full self w
  = Run (Val false) w2
        (opening ++ evs1 ++ evs2 ++ [EvLog ERROR (abort_message s)]).
Proof.
  intros Hearlier Hfails. unfold deploy_full, opening.
  rewrite !bind_log; cbv beta.
  change (check_connectivity self) with (run_step self Connectivity).
  change (create_directories self) with (run_step self Directories).
  change (deploy_library self) with (run_step self Library).
  change (initialize_protection self) with (run_step self Protection).
  destruct s; steps_passed Hearlier; unfold abort_message;
    repeat match goal with
           | Hp : result (run_step self ?s' ?w') = Val true
             |- context [bind (run_step self ?s') _ ?w'] =>
               rewrite (bind_result _ _ _ _ Hp); cbv beta; cbn [negb]; clear Hp
           end;
    erewrite bind_val by exact Hfails; cbn [negb]; rewrite bind_log;
    unfold pure; cbn [prepend result final events app];
    rewrite <- ?app_assoc; reflexivity.
Qed.

(** C2.  [deploy_full] returns true exactly when [check_connectivity],
    [create_directories], [deploy_library] and [initialize_protection], run
    one after the other, each return true and [verify_deployment], run
    after them, reports that all checks passed. *)
Theorem deploy_full_true_iff (w : world) :
  let connectivity := check_connectivity self w in
  let directories := create_directories self (final connectivity) in
  let library := deploy_library self (final directories) in
  let protection := initialize_protection self (final library) in
  let verification := verify_deployment self (final protection) in
  result (deploy_full self w) = Val true
  <-> result connectivity = Val true
      /\ result directories = Val true
      /\ result library = Val true
      /\ result protection = Val true
      /\ exists checks, result verification = Val (true, checks).
Proof.
  cbv zeta. unfold deploy_full.
  do 3 (rewrite result_bind; cbn [log result final]).
  rewrite result_bind.
  destruct (result (check_connectivity self w)) as [[|]|e]; cbn [negb];
    [| rewrite result_bind; cbn [log pure result final];
       split; [discriminate | intros (E & _); discriminate E]
     | split; [discriminate | intros (E & _); discriminate E] ].
  rewrite result_bind.
  destruct (result (create_directories self _)) as [[|]|e]; cbn [negb];
    [| rewrite result_bind; cbn [log pure result final];
       split; [discriminate | intros (_ & E & _); discriminate E]
     | split; [discriminate | intros (_ & E & _); discriminate E] ].
  rewrite result_bind.
  destruct (result (deploy_library self _)) as [[|]|e]; cbn [negb];
    [| rewrite result_bind; cbn [log pure result final];
       split; [discriminate | intros (_ & _ & E & _); discriminate E]
     | split; [discriminate | intros (_ & _ & E & _); discriminate E] ].
  rewrite result_bind.
  destruct (result (initialize_protection self _)) as [[|]|e]; cbn [negb];
    [| rewrite result_bind; cbn [log pure result final];
       split; [discriminate | intros (_ & _ & _ & E & _); discriminate E]
     | split; [discriminate | intros (_ & _ & _ & E & _); discriminate E] ].
  rewrite result_bind.
  destruct (result (verify_deployment self _)) as [[[|] checks]|e].
  - do 3 (rewrite result_bind; cbn [log pure result final]).
    split; [intros _; repeat split; now exists checks | reflexivity].
  - do 3 (rewrite result_bind; cbn [log pure result final]).
    split; [discriminate|].
    intros (_ & _ & _ & _ & cs & E). discriminate E.
  - split; [discriminate|].
    intros (_ & _ & _ & _ & cs & E). discriminate E.
Qed.
End Workflow.

(** ** Exceptions at the step boundary *)

Section Boundary.
Context `{Host}.
Variable self : SlaveDeployer.

Lemma is_deployed_loop_returns (checks : list string) (w : world) :
  (exists b, result (is_deployed_loop checks w) = Val b)
  /\ (raised_in (events (is_deployed_loop checks w)) = true ->
      result (is_deployed_loop checks w) = Val false).
Proof.
  revert w. induction checks as [|check rest IH]; intros w.
  - split; [now exists true | discriminate].
  - cbn [is_deployed_loop]. run_method.
    destruct (ssh_reply check DEFAULT_SSH_TIMEOUT w) as [ret out err|exc];
      run_method.
    + destruct (ret =? 0); run_method.
      * destruct (IH (ssh_next check DEFAULT_SSH_TIMEOUT w)) as [Hb Hr].
        split; [exact Hb|]. read_raised. exact Hr.
      * split; [now exists false | reflexivity].
    + split; [now exists false | reflexivity].
Qed.

(** C9, with its one exception.  No step lets an exception of the channel
    or of the copy tool through: each returns a value ([deploy_library] can
    only let through what a local existence check raised, and then neither
    the channel nor the copy tool was called).  When one was raised during
    the step, that value is false (for [verify_deployment]: the flag is false
    and an entry is marked as failed), except in [deploy_library], where a
    channel error on the [chmod] that follows a successful copy gives
    true. *)
Theorem steps_catch_exceptions (w : world) :
  let raised {A} (r : run A) := raised_in (events r) = true in
  let copy :=
    _copy_to_slave self (library_file self) (remote_library self)
      (ssh_next (deploy_mkdir_command self) DEFAULT_SSH_TIMEOUT w) in
  ((exists b, result (check_connectivity self w) = Val b)
   /\ (raised (check_connectivity self w) ->
       result (check_connectivity self w) = Val false))
  /\ ((exists b, result (create_directories self w) = Val b)
      /\ (raised (create_directories self w) ->
          result (create_directories self w) = Val false))
  /\ ((forall exc,
          result (deploy_library self w) = Exn exc ->
          raised_in (events (deploy_library self w)) = false
          /\ ssh_calls (events (deploy_library self w)) = []
          /\ rsync_calls (events (deploy_library self w)) = []
          /\ (path_exists (local_lib_path self) w = Exn exc
              \/ path_exists (library_file self) w = Exn exc))
      /\ (raised (deploy_library self w) ->
          (exists b, result (deploy_library self w) = Val b)
          /\ (result (deploy_library self w) = Val false
              \/ (result (deploy_library self w) = Val true
                  /\ result copy = Val true
                  /\ is_raised (ssh_reply (chmod_command self)
                                  DEFAULT_SSH_TIMEOUT (final copy)) = true))))
  /\ ((exists b, result (initialize_protection self w) = Val b)
      /\ (raised (initialize_protection self w) ->
          result (initialize_protection self w) = Val false))
  /\ (exists all_passed checks,
        result (verify_deployment self w) = Val (all_passed, checks)
        /\ (raised (verify_deployment self w) ->
            all_passed = false
            /\ existsb (fun c => negb (entry_passed c)) checks = true))
  /\ ((exists b, result (is_deployed self w) = Val b)
      /\ (raised (is_deployed self w) ->
          result (is_deployed self w) = Val false)).
Proof.
  cbv zeta.
  split; [apply check_connectivity_returns|].
  split; [apply create_directories_returns|].
  split.
  { destruct (deploy_library_returns self w) as [Hexn Hraised]. split.
    - intros exc E.
      destruct (Hexn exc E) as (Hq & Hs & Hr & _ & [Hp|[_ Hp]]);
        repeat split; auto.
    - intros R. destruct (Hraised R) as [E|(E & Hc & Hch)].
      + split; [eauto | now left].
      + split; [eauto | right; now repeat split]. }
  split; [apply initialize_protection_returns|].
  split; [apply verify_deployment_returns|].
  apply is_deployed_loop_returns.
Qed.
End Boundary.

(** * Runs on concrete hosts *)

(** C1 on a host whose [mkdir] exits 1: the connectivity probe passes,
    [create_directories] returns false at its first directory, and the run
    ends there, with two remote commands in all. *)
Lemma deploy_full_stops_at_failure_witness :
  result (@deploy_full mkdir_exits_host a_deployer tt) = Val false
  /\ map fst (ssh_calls (events (@deploy_full mkdir_exits_host a_deployer tt)))
     = [("echo test", 300); ("mkdir -p /root/kernel-bisect/lib", 30)]
  /\ rsync_calls (events (@deploy_full mkdir_exits_host a_deployer tt)) = [].
Proof.
  rewrite (@deploy_full_stops_at_failure mkdir_exits_host a_deployer
             Directories tt tt tt _ _ eq_refl eq_refl).
  repeat split.
Defined.



(** C6 on a host whose [chmod] exits 1. *)
Lemma deploy_library_chmod_not_fatal_witness :
  result (@deploy_library chmod_exits_host a_deployer tt) = Val true.
Proof.
  exact (proj1 (@deploy_library_chmod_not_fatal chmod_exits_host a_deployer tt
                  eq_refl eq_refl eq_refl eq_refl eq_refl)).
Defined.

(** C4 on a host that exits 0 and prints a greeting without the token. *)
Lemma check_connectivity_token_witness :
  result (@check_connectivity greeting_host a_deployer tt) = Val false.
Proof.
  apply (proj1 (proj2 (@check_connectivity_token greeting_host a_deployer tt))
           "Welcome" ""); [reflexivity|].
  intros Hs. apply contains_spec in Hs. discriminate Hs.
Defined.

(** C8 on a host whose copy tool exits 23. *)
Lemma copy_to_slave_failures_witness :
  result (@deploy_library rsync_exits_host a_deployer tt) = Val false.
Proof.
  refine (proj1 (proj2 (proj2 (proj2
            (@copy_to_slave_failures rsync_exits_host a_deployer tt)))
            "test" "" 23 "" "rsync error" eq_refl eq_refl eq_refl eq_refl
            eq_refl _)).
  discriminate.
Defined.

(** C10 on a host whose channel is down for [mkdir]. *)
Lemma copy_to_slave_wraps_channel_error_witness :
  result (@_copy_to_slave mkdir_raises_host a_deployer
            "/opt/kbisect/lib/bisect-functions.sh"
            "/root/kernel-bisect/lib/bisect-functions.sh" tt)
  = Exn (TransferError
           "File transfer error: SSH command failed: connection refused").
Proof.
  exact (proj1 (@copy_to_slave_wraps_channel_error mkdir_raises_host a_deployer
                  "/opt/kbisect/lib/bisect-functions.sh"
                  "/root/kernel-bisect/lib/bisect-functions.sh" tt)
           (OtherException "connection refused") eq_refl).
Defined.

(** C9 without its exception does not hold: on a host whose channel breaks
    on [chmod], [deploy_library] meets a channel error and returns true, not
    false. *)
Lemma chmod_channel_error_returns_true :
  raised_in (events (@deploy_library chmod_raises_host a_deployer tt)) = true
  /\ In ("chmod +x /root/kernel-bisect/lib/bisect-functions.sh", 30,
         channel_down)
        (ssh_calls (events (@deploy_library chmod_raises_host a_deployer tt)))
  /\ result (@deploy_library chmod_raises_host a_deployer tt) = Val true.
Proof.
  split; [reflexivity|]. split; [|reflexivity].
  right. right. left. reflexivity.
Qed.

(** ** The commands of the default deployment *)

Example dirname_of_remote_library :
  dirname (remote_library a_deployer) = "/root/kernel-bisect/lib".
Proof. reflexivity. Qed.

Example dirname_keeps_leading_slashes :
  dirname "/lib" = "/" /\ dirname "//lib" = "//" /\ dirname "lib" = ""
  /\ dirname "a//b" = "a" /\ dirname "a/b/" = "a/b".
Proof. repeat split. Qed.

Example shlex_quote_examples :
  shlex_quote "/root/kernel-bisect/lib" = "/root/kernel-bisect/lib"
  /\ shlex_quote "" = "''"
  /\ shlex_quote "my dir" = "'my dir'"
  /\ String.length (shlex_quote "it's") = 10%nat.
Proof. repeat split. Qed.

Example copy_mkdir_command_default :
  copy_mkdir_command (remote_library a_deployer)
  = "mkdir -p /root/kernel-bisect/lib".
Proof. reflexivity. Qed.

(** ** The scenarios of the specification *)

(** A: everything succeeds; the report has four passed entries. *)
Example scenario_all_succeed :
  result (@deploy_full healthy_host a_deployer tt) = Val true
  /\ result (@verify_deployment healthy_host a_deployer tt)
     = Val (true, [ "✓ Library directory exists";
                    "✓ bisect-functions.sh executable";
                    "✓ Kernel protection initialized";
                    "✓ State directory exists" ]).
Proof. split; reflexivity. Qed.

(** B: [mkdir] exits non-zero; the workflow fails in [create_directories]
    and the copy tool is never started. *)
Example scenario_mkdir_fails :
  result (@create_directories mkdir_exits_host a_deployer tt) = Val false
  /\ result (@deploy_full mkdir_exits_host a_deployer tt) = Val false
  /\ rsync_calls (events (@deploy_full mkdir_exits_host a_deployer tt)) = []
  /\ In (EvLog ERROR "Deployment failed: Could not create directories")
        (events (@deploy_full mkdir_exits_host a_deployer tt)).
Proof.
  repeat split. cbv. in_trace.
Qed.

(** C: the copy tool exits non-zero; [deploy_library] returns false and the
    workflow stops there, before the [chmod] and the initialization. *)
Example scenario_copy_fails :
  result (@deploy_library rsync_exits_host a_deployer tt) = Val false
  /\ result (@deploy_full rsync_exits_host a_deployer tt) = Val false
  /\ map fst (ssh_calls (events (@deploy_full rsync_exits_host a_deployer tt)))
     = [ ("echo test", 300);
         ("mkdir -p /root/kernel-bisect/lib", 30);
         ("mkdir -p /var/lib/kernel-bisect", 30);
         ("mkdir -p /var/log", 30);
         ("mkdir -p /root/kernel-bisect/lib", 30);
         ("mkdir -p /root/kernel-bisect/lib", 30) ].
Proof. repeat split. Qed.

(** D: the initialization exits non-zero after a successful copy; the
    verification never runs. *)
Example scenario_init_fails :
  result (@deploy_library init_exits_host a_deployer tt) = Val true
  /\ result (@deploy_full init_exits_host a_deployer tt) = Val false
  /\ existsb (fun c => prefix "test " (fst (fst c)))
       (ssh_calls (events (@deploy_full init_exits_host a_deployer tt)))
     = false.
Proof. repeat split. Qed.

(** [is_deployed] on a host whose library is not executable: the second
    probe fails and the third is not tried. *)
Example is_deployed_stops_at_second :
  let host := scripted_host (ssh_failing "test -x" exit1) ok_reply all_present in
  result (@is_deployed host a_deployer tt) = Val false
  /\ map fst (ssh_calls (events (@is_deployed host a_deployer tt)))
     = [ ("test -d /root/kernel-bisect/lib", 30);
         ("test -x /root/kernel-bisect/lib/bisect-functions.sh", 30) ].
Proof. split; reflexivity. Qed.

(** [verify_deployment] on the same host: all four probes are tried. *)
Example verify_deployment_goes_on :
  let host := scripted_host (ssh_failing "test -x" exit1) ok_reply all_present in
  result (@verify_deployment host a_deployer tt)
  = Val (false, [ "✓ Library directory exists";
                  "✗ bisect-functions.sh not found";
                  "✓ Kernel protection initialized";
                  "✓ State directory exists" ]).
Proof. reflexivity. Qed.

(** * Further facts *)

(** ** Probes tried in order *)

Section InOrder.
Context `{Host}.

Lemma Val_eq {A} (a b : A) : Val a = Val b -> a = b.
Proof. intros E. congruence. Qed.

Lemma bind_raised {A B} (m : M A) (k : A -> M B) (w : world) (e : exn) :
  result (m w) = Exn e ->
  bind m k w = Run (Exn e) (final (m w)) (events (m w)).
Proof. intros E. unfold bind. rewrite E. reflexivity. Qed.

Lemma calls_in_sequence_cons (command : string) (rest : list string)
    (timeout : Z) (w : world) :
  calls_in_sequence (command :: rest) timeout w
  = (command, timeout, ssh_reply command timeout w)
      :: calls_in_sequence rest timeout (ssh_next command timeout w).
Proof. reflexivity. Qed.

Lemma map_snd_calls_in_sequence (commands : list string) (timeout : Z)
    (w : world) :
  map snd (calls_in_sequence commands timeout w)
  = ssh_replies commands timeout w.
Proof.
  revert w. induction commands as [|c cs IH]; intros w; [reflexivity|].
  rewrite calls_in_sequence_cons. cbn [map snd ssh_replies]. now rewrite IH.
Qed.

Lemma map_fst_calls_in_sequence (commands : list string) (timeout : Z)
    (w : world) :
  map fst (calls_in_sequence commands timeout w)
  = map (fun c => (c, timeout)) commands.
Proof.
  revert w. induction commands as [|c cs IH]; intros w; [reflexivity|].
  rewrite calls_in_sequence_cons. cbn [map fst]. now rewrite IH.
Qed.

(** When every probe passes, none is cut off. *)
Lemma upto_first_failure_all (calls : list (string * Z * reply)) :
  forallb probe_ok (map snd calls) = true -> upto_first_failure calls = calls.
Proof.
  induction calls as [|call rest IH]; [reflexivity|].
  cbn [map forallb upto_first_failure]. intros Hall.
  apply andb_true_iff in Hall as [Hcall Hrest].
  rewrite Hcall, (IH Hrest). reflexivity.
Qed.

(** What is cut off comes after a probe that failed. *)
Lemma upto_first_failure_prefix (calls : list (string * Z * reply)) :
  exists skipped, calls = (upto_first_failure calls ++ skipped)%list.
Proof.
  induction calls as [|call rest [skipped IH]]; [now exists []|].
  cbn [upto_first_failure]. destruct (probe_ok (snd call)).
  - exists skipped. cbn [app]. now rewrite <- IH.
  - now exists rest.
Qed.

(** The calls kept all passed, but for the last one when the result is
    false. *)
Lemma upto_first_failure_last (calls : list (string * Z * reply)) :
  forallb probe_ok (map snd calls) = false ->
  exists passed call,
    upto_first_failure calls = (passed ++ [call])%list
    /\ forallb probe_ok (map snd passed) = true
    /\ probe_ok (snd call) = false.
Proof.
  induction calls as [|call rest IH]; [discriminate|].
  cbn [map forallb upto_first_failure]. destruct (probe_ok (snd call)) eqn:Hc.
  - cbn [andb]. intros Hrest. destruct (IH Hrest) as (passed & bad & -> & Hp & Hb).
    exists (call :: passed), bad. cbn [map forallb app]. rewrite Hc, Hp.
    now repeat split.
  - intros _. exists [], call. now repeat split.
Qed.
End InOrder.

(** ** create_directories *)

Section Directories.
Context `{Host}.
Variable self : SlaveDeployer.

Lemma create_directories_loop_run (dirs : list string) (done : M bool)
    (w : world) :
  (forall w', result (done w') = Val true
              /\ ssh_calls (events (done w')) = []
              /\ rsync_calls (events (done w')) = []) ->
  let commands := map (fun directory => "mkdir -p " ++ directory) dirs in
  let run := create_directories_loop dirs done w in
  result run = Val (forallb probe_ok (ssh_replies commands DEFAULT_SSH_TIMEOUT w))
  /\ ssh_calls (events run)
     = upto_first_failure (calls_in_sequence commands DEFAULT_SSH_TIMEOUT w)
  /\ rsync_calls (events run) = [].
Proof.
  intros Hdone. cbv zeta. revert w.
  induction dirs as [|directory rest IH]; intros w.
  - exact (Hdone w).
  - cbn [map]. rewrite calls_in_sequence_cons.
    cbn [create_directories_loop ssh_replies forallb upto_first_failure snd].
    run_method.
    destruct (ssh_reply ("mkdir -p " ++ directory) DEFAULT_SSH_TIMEOUT w)
      as [ret out err|exc]; run_method; cbn [probe_ok andb].
    + destruct (ret =? 0); run_method; read_trace.
      * destruct (IH (ssh_next ("mkdir -p " ++ directory) DEFAULT_SSH_TIMEOUT w))
          as (Hr & Hc & Hs).
        split; [exact Hr|]. split; [now rewrite Hc | exact Hs].
      * repeat split.
    + read_trace. repeat split.
Qed.

(** X1.  [create_directories] issues [mkdir -p] for the deploy path, the
    state directory and [/var/log], in that order and with the default
    timeout, stops after the first one that exits non-zero or on which the
    channel raises, never starts the copy tool, and returns true exactly when
    all three exited 0. *)
Theorem create_directories_fail_fast (w : world) :
  let replies := ssh_replies (mkdir_commands self) DEFAULT_SSH_TIMEOUT w in
  mkdir_commands self
    = [ "mkdir -p " ++ deploy_path self;
        "mkdir -p /var/lib/kernel-bisect";
        "mkdir -p /var/log" ]
  /\ ssh_calls (events (create_directories self w))
     = upto_first_failure
         (calls_in_sequence (mkdir_commands self) DEFAULT_SSH_TIMEOUT w)
  /\ rsync_calls (events (create_directories self w)) = []
  /\ result (create_directories self w) = Val (forallb probe_ok replies)
  /\ (result (create_directories self w) = Val true <->
      forall r, In r replies -> exists out err, r = Returned 0 out err).
Proof.
  intros replies.
  destruct (create_directories_loop_run (directories self)
              (log INFO "✓ Directories created" ;; pure true) w)
    as (Hres & Hcalls & Hrsync); [intros w'; repeat split|].
  fold (mkdir_commands self) in Hres, Hcalls. fold replies in Hres.
  assert (Hrun : create_directories self w
                 = prepend [EvLog INFO "Creating directories on slave..."]
                     (create_directories_loop (directories self)
                        (log INFO "✓ Directories created" ;; pure true) w))
    by reflexivity.
  rewrite Hrun. cbn [prepend result events app ssh_calls rsync_calls].
  split; [reflexivity|]. split; [exact Hcalls|]. split; [exact Hrsync|].
  split; [exact Hres|]. rewrite Hres. clearbody replies. split.
  - intros E. assert (Hall : forallb probe_ok replies = true) by congruence.
    rewrite forallb_forall in Hall. intros r Hin.
    specialize (Hall r Hin). destruct r as [ret out err|exc];
      [|discriminate Hall].
    cbn [probe_ok] in Hall. apply Z.eqb_eq in Hall. subst. now exists out, err.
  - intros Hall. f_equal. apply forallb_forall. intros r Hin.
    destruct (Hall r Hin) as (out & err & ->). reflexivity.
Qed.
End Directories.

(** ** initialize_protection *)

Section Protection.
Context `{Host}.
Variable self : SlaveDeployer.

(** X2.  [initialize_protection] issues one remote command, sourcing the
    deployed library and calling [init_protection], with a timeout of 60; it
    returns true exactly when that command exits 0.  The output of a
    successful run is logged at the debug level, the error output of a
    failed one at the error level. *)
Theorem initialize_protection_exit_code (w : world) :
  let r := ssh_reply (init_command self) 60 w in
  let run := initialize_protection self w in
  init_command self
    = "source " ++ deploy_path self ++ "/bisect-functions.sh && init_protection"
  /\ ssh_calls (events run) = [(init_command self, 60, r)]
  /\ rsync_calls (events run) = []
  /\ final run = ssh_next (init_command self) 60 w
  /\ result run = Val (probe_ok r)
  /\ (forall out err, r = Returned 0 out err ->
      In (EvLog DEBUG ("Protection output: " ++ out)) (events run))
  /\ (forall ret out err, r = Returned ret out err -> ret <> 0 ->
      In (EvLog ERROR ("Failed to initialize protection: " ++ err))
         (events run)).
Proof.
  intros r run. subst run. unfold initialize_protection. run_method. fold r.
  split; [reflexivity|].
  destruct r as [ret out err|exc]; run_method; cbn [probe_ok].
  - destruct (Z.eqb_spec ret 0) as [->|ne]; run_method; read_trace.
    + repeat split; try discriminate.
      * intros o e [= <- <-]. in_trace.
      * intros ret o e [= <- _ _] ne. now elim ne.
    + repeat split; try discriminate.
      * intros o e [= E _ _]. contradiction.
      * intros ret' o e [= <- <- <-] _. in_trace.
  - read_trace. repeat split; discriminate.
Qed.
End Protection.

(** ** deploy_library, step by step *)

Section LibrarySteps.
Context `{Host}.
Variable self : SlaveDeployer.

Lemma returned_true_iff (o : outcome bool) :
  returned_true o = true <-> o = Val true.
Proof. destruct o as [[|]|e]; cbn; split; congruence. Qed.

(** When [_copy_to_slave] returns true. *)
Lemma _copy_to_slave_returned_true (local_path remote_path : string)
    (w : world) :
  returned_true (result (_copy_to_slave self local_path remote_path w))
  = probe_ok (ssh_reply (copy_mkdir_command remote_path) DEFAULT_SSH_TIMEOUT w)
    && probe_ok
         (rsync_reply (rsync_cmd self local_path remote_path) 60
            (ssh_next (copy_mkdir_command remote_path) DEFAULT_SSH_TIMEOUT w)).
Proof.
  pose proof (_copy_to_slave_run self local_path remote_path w) as [R _].
  cbv zeta in R.
  destruct (ssh_reply (copy_mkdir_command remote_path) DEFAULT_SSH_TIMEOUT w)
    as [ret out err|exc]; cbn [probe_ok].
  - destruct (ret =? 0); cbn [andb].
    + destruct R as (_ & _ & Hr).
      destruct (rsync_reply _ _ _) as [rc o e|e]; cbn [probe_ok].
      * rewrite Hr. now destruct (rc =? 0).
      * destruct Hr as [msg ->]. reflexivity.
    + destruct R as (-> & _). reflexivity.
  - destruct R as ((msg & ->) & _). reflexivity.
Qed.

(** The result and the calls of [deploy_library], by the two existence
    checks, the reply to its [mkdir] and the run of the copy. *)
Lemma deploy_library_run (w : world) :
  let found :=
    returned_true (path_exists (local_lib_path self) w)
    && returned_true (path_exists (library_file self) w) in
  let mk := ssh_reply (deploy_mkdir_command self) DEFAULT_SSH_TIMEOUT w in
  let w1 := ssh_next (deploy_mkdir_command self) DEFAULT_SSH_TIMEOUT w in
  let copy := _copy_to_slave self (library_file self) (remote_library self) w1 in
  let chmod := ssh_reply (chmod_command self) DEFAULT_SSH_TIMEOUT (final copy) in
  let run := deploy_library self w in
  returned_true (result run)
  = found && probe_ok mk && returned_true (result copy)
  /\ rsync_calls (events run)
     = (if found && probe_ok mk then rsync_calls (events copy) else [])
  /\ ssh_calls (events run)
     = (if found then
          (deploy_mkdir_command self, DEFAULT_SSH_TIMEOUT, mk)
            :: (if probe_ok mk then
                  ssh_calls (events copy)
                    ++ (if returned_true (result copy)
                        then [(chmod_command self, DEFAULT_SSH_TIMEOUT, chmod)]
                        else [])
                else [])
        else [])%list.
Proof.
  cbv zeta. unfold chmod_command, deploy_mkdir_command.
  unfold deploy_library. run_method.
  destruct (path_exists (local_lib_path self) w) as [[|]|e1]; run_method;
    [|repeat split|repeat split].
  destruct (path_exists (library_file self) w) as [[|]|e2]; run_method;
    [|repeat split|repeat split].
  cbn [andb returned_true].
  destruct (ssh_reply ("mkdir -p " ++ deploy_path self) DEFAULT_SSH_TIMEOUT w)
    as [ret out err|exc]; run_method; cbn [probe_ok andb]; [|repeat split].
  destruct (ret =? 0); run_method; [|repeat split].
  set (w1 := ssh_next _ _ w).
  set (copy := _copy_to_slave self (library_file self) (remote_library self) w1).
  pose proof (_copy_to_slave_exn self (library_file self)
                (remote_library self) w1) as Hexn. fold copy in Hexn.
  destruct (result copy) as [[|]|exc] eqn:Hcopy; run_method;
    cbn [returned_true].
  - set (chmod := ssh_reply _ _ (final copy)).
    destruct chmod as [ret' out' err'|exc]; run_method.
    + destruct (ret' =? 0); run_method; read_trace;
        rewrite !ssh_calls_app, !rsync_calls_app; read_trace;
        rewrite ?app_nil_r; repeat split.
    + read_trace. rewrite !ssh_calls_app, !rsync_calls_app. read_trace.
      rewrite ?app_nil_r. repeat split.
  - read_trace. rewrite !ssh_calls_app, !rsync_calls_app. read_trace.
    rewrite ?app_nil_r. repeat split.
  - destruct (Hexn exc eq_refl) as [Ht _]. rewrite Ht. run_method.
    read_trace. rewrite !ssh_calls_app, !rsync_calls_app. read_trace.
    rewrite ?app_nil_r. repeat split.
Qed.
End LibrarySteps.

Section LibraryFacts.
Context `{Host}.
Variable self : SlaveDeployer.

(** X3.  [_copy_to_slave] returns true exactly when the remote [mkdir] of
    the parent directory and the copy tool both exit 0; the copy tool is run
    with a timeout of 60 on the [rsync] command line of the source, and only
    after that [mkdir] has exited 0. *)
Theorem copy_to_slave_true_iff (local_path remote_path : string) (w : world) :
  let mk := ssh_reply (copy_mkdir_command remote_path) DEFAULT_SSH_TIMEOUT w in
  let w1 := ssh_next (copy_mkdir_command remote_path) DEFAULT_SSH_TIMEOUT w in
  let argv := rsync_cmd self local_path remote_path in
  let cp := rsync_reply argv 60 w1 in
  let run := _copy_to_slave self local_path remote_path w in
  (result run = Val true <-> probe_ok mk = true /\ probe_ok cp = true)
  /\ rsync_calls (events run) = (if probe_ok mk then [(argv, 60, cp)] else [])
  /\ argv = [ "rsync"; "-az"; "-e";
              "ssh -o StrictHostKeyChecking=no -o ConnectTimeout=10";
              local_path;
              slave_user self ++ "@" ++ slave_host self ++ ":" ++ remote_path ].
Proof.
  intros mk w1 argv cp run.
  pose proof (_copy_to_slave_returned_true self local_path remote_path w) as Ht.
  pose proof (_copy_to_slave_run self local_path remote_path w) as [R _].
  cbv zeta in R. fold mk w1 argv cp run in Ht, R.
  split; [|split; [|reflexivity]].
  - rewrite <- andb_true_iff, <- Ht.
    destruct (result run) as [[|]|e]; cbn [returned_true];
      split; (reflexivity || discriminate).
  - destruct mk as [ret out err|exc]; cbn [probe_ok].
    + destruct (ret =? 0); [apply R | apply R].
    + apply R.
Qed.

(** X4.  [deploy_library] returns true exactly when the local library
    directory and the library file exist, the remote [mkdir] of the deploy
    path exits 0, and the copy (its own [mkdir] and the copy tool) succeeds:
    the reply to [chmod] plays no part. *)
Theorem deploy_library_true_iff (w : world) :
  let w1 := ssh_next (deploy_mkdir_command self) DEFAULT_SSH_TIMEOUT w in
  let w2 := ssh_next (copy_mkdir_command (remote_library self))
              DEFAULT_SSH_TIMEOUT w1 in
  result (deploy_library self w) = Val true
  <-> path_exists (local_lib_path self) w = Val true
      /\ path_exists (library_file self) w = Val true
      /\ probe_ok (ssh_reply (deploy_mkdir_command self) DEFAULT_SSH_TIMEOUT w)
         = true
      /\ probe_ok (ssh_reply (copy_mkdir_command (remote_library self))
                     DEFAULT_SSH_TIMEOUT w1) = true
      /\ probe_ok (rsync_reply
                     (rsync_cmd self (library_file self) (remote_library self))
                     60 w2) = true.
Proof.
  intros w1 w2. destruct (deploy_library_run self w) as (Hres & _).
  rewrite <- !returned_true_iff, <- !andb_true_iff, !andb_assoc.
  rewrite Hres, (_copy_to_slave_returned_true self). fold w1. fold w2.
  rewrite !andb_assoc. reflexivity.
Qed.

(** X5.  In [deploy_library] the copy tool is started, once, exactly when
    both local paths exist and the two remote [mkdir] commands before it
    exit 0; and [chmod +x] on the remote library is issued, last, exactly
    when the copy returned true. *)
Theorem deploy_library_remote_effects (w : world) :
  let found :=
    returned_true (path_exists (local_lib_path self) w)
    && returned_true (path_exists (library_file self) w) in
  let mk := ssh_reply (deploy_mkdir_command self) DEFAULT_SSH_TIMEOUT w in
  let w1 := ssh_next (deploy_mkdir_command self) DEFAULT_SSH_TIMEOUT w in
  let mk' := ssh_reply (copy_mkdir_command (remote_library self))
               DEFAULT_SSH_TIMEOUT w1 in
  let w2 := ssh_next (copy_mkdir_command (remote_library self))
              DEFAULT_SSH_TIMEOUT w1 in
  let argv := rsync_cmd self (library_file self) (remote_library self) in
  let cp := rsync_reply argv 60 w2 in
  let copy := _copy_to_slave self (library_file self) (remote_library self) w1 in
  let chmod := ssh_reply (chmod_command self) DEFAULT_SSH_TIMEOUT (final copy) in
  rsync_calls (events (deploy_library self w))
    = (if found && probe_ok mk && probe_ok mk' then [(argv, 60, cp)] else [])
  /\ ssh_calls (events (deploy_library self w))
     = (if found then
          (deploy_mkdir_command self, DEFAULT_SSH_TIMEOUT, mk)
          :: (if probe_ok mk then
                (copy_mkdir_command (remote_library self),
                 DEFAULT_SSH_TIMEOUT, mk')
                :: (if probe_ok mk' && probe_ok cp
                    then [(chmod_command self, DEFAULT_SSH_TIMEOUT, chmod)]
                    else [])
              else [])
        else []).
Proof.
  intros found mk w1 mk' w2 argv cp copy chmod.
  destruct (deploy_library_run self w) as (_ & Hrsync & Hssh).
  pose proof (_copy_to_slave_returned_true self (library_file self)
                (remote_library self) w1) as Ht.
  pose proof (_copy_to_slave_run self (library_file self)
                (remote_library self) w1) as [R Hs].
  cbv zeta in R.
  fold found mk w1 copy chmod in Hrsync, Hssh.
  fold copy mk' w2 argv cp in Ht, R, Hs.
  rewrite Hrsync, Hssh, Hs, Ht. split.
  - destruct (found && probe_ok mk); [|reflexivity]. cbn [andb].
    destruct mk' as [ret out err|exc]; cbn [probe_ok].
    + destruct (ret =? 0); apply R.
    + apply R.
  - reflexivity.
Qed.
End LibraryFacts.

(** ** update_library *)

Section Update.
Context `{Host}.
Variable self : SlaveDeployer.

(** X6.  [update_library] ends as [deploy_library] ends (with the same
    boolean, or with the same exception), leaves the same world and makes
    the same remote and copy-tool calls.  It logs one line before, and one
    after when [deploy_library] returned: a success at the info level, a
    failure at the error level. *)
Theorem update_library_as_deploy_library (w : world) :
  result (update_library self w) = result (deploy_library self w)
  /\ final (update_library self w) = final (deploy_library self w)
  /\ ssh_calls (events (update_library self w))
     = ssh_calls (events (deploy_library self w))
  /\ rsync_calls (events (update_library self w))
     = rsync_calls (events (deploy_library self w))
  /\ events (update_library self w)
     = (EvLog INFO "Updating library file..."
          :: events (deploy_library self w)
          ++ match result (deploy_library self w) with
             | Val true => [EvLog INFO "✓ Library updated successfully"]
             | Val false => [EvLog ERROR "Library update failed"]
             | Exn _ => []
             end)%list.
Proof.
  unfold update_library. rewrite bind_log. cbv beta.
  destruct (result (deploy_library self w)) as [b|exc] eqn:Hb.
  - rewrite (bind_result _ _ _ _ Hb).
    destruct b; cbn [negb]; rewrite bind_log; unfold pure;
      cbn [prepend result final events app ssh_calls rsync_calls];
      rewrite ssh_calls_app, rsync_calls_app;
      cbn [ssh_calls rsync_calls]; rewrite !app_nil_r;
      repeat split.
  - rewrite (bind_raised _ _ _ _ Hb).
    cbn [prepend result final events app ssh_calls rsync_calls].
    rewrite app_nil_r. repeat split.
Qed.
End Update.

(** ** deploy_full, as a whole *)

Section WorkflowRuns.
Context `{Host}.
Variable self : SlaveDeployer.

(** The run of [deploy_full] when every step returns true. *)
Lemma deploy_full_passing (w : world) :
  let connectivity := check_connectivity self w in
  let directories := create_directories self (final connectivity) in
  let library := deploy_library self (final directories) in
  let protection := initialize_protection self (final library) in
  let verification := verify_deployment self (final protection) in
  result connectivity = Val true ->
  result directories = Val true ->
  result library = Val true ->
  result protection = Val true ->
  forall success checks,
    result verification = Val (success, checks) ->
    deploy_full self w
    = Run (Val success) (final verification)
          (opening ++ events connectivity ++ events directories
             ++ events library ++ events protection ++ events verification
             ++ (if success then closing
                 else [ EvLog ERROR banner;
                        EvLog ERROR "✗ Deployment completed with errors";
                        EvLog ERROR banner ])).
Proof.
  cbv zeta. intros Hc Hd Hl Hp success checks Hv.
  unfold deploy_full, opening, closing. rewrite !bind_log; cbv beta.
  rewrite (bind_result _ _ _ _ Hc); cbv beta; cbn [negb].
  rewrite (bind_result _ _ _ _ Hd); cbv beta; cbn [negb].
  rewrite (bind_result _ _ _ _ Hl); cbv beta; cbn [negb].
  rewrite (bind_result _ _ _ _ Hp); cbv beta; cbn [negb].
  rewrite (bind_result _ _ _ _ Hv); cbv beta iota.
  destruct success; rewrite !bind_log; unfold pure;
    cbn [prepend result final events app]; rewrite <- ?app_assoc;
    reflexivity.
Qed.

(** A step that returned true met no exception. *)
Lemma quiet_when_true (evs : list event) (o : outcome bool) :
  (raised_in evs = true -> o = Val false) -> o = Val true ->
  raised_in evs = false.
Proof.
  intros Hraised Htrue. destruct (raised_in evs); [|reflexivity].
  rewrite (Hraised eq_refl) in Htrue. discriminate Htrue.
Qed.

(** Closes the case of [deploy_full] in which a step returned false. *)
Ltac step_failed :=
  rewrite bind_log; unfold pure; cbn [prepend result events];
  intros _; rewrite !existsb_app; cbn [existsb is_error_line];
  now rewrite ?orb_true_r.

(** How [deploy_full] ends: with a boolean, an error line being logged when
    it is false; or with the exception that an existence check of
    [deploy_library] raised, in a run in which neither the channel nor the
    copy tool raised. *)
Lemma deploy_full_outcome (w : world) :
  let w1 := final (check_connectivity self w) in
  let w2 := final (create_directories self w1) in
  match result (deploy_full self w) with
  | Val b =>
      b = false -> existsb is_error_line (events (deploy_full self w)) = true
  | Exn exc =>
      result (check_connectivity self w) = Val true
      /\ result (create_directories self w1) = Val true
      /\ result (deploy_library self w2) = Exn exc
      /\ raised_in (events (deploy_full self w)) = false
  end.
Proof.
  cbv zeta.
  destruct (check_connectivity_returns self w) as [[b1 H1] R1].
  unfold deploy_full. rewrite !bind_log; cbv beta.
  rewrite (bind_result _ _ _ _ H1); cbv beta.
  set (w1 := final (check_connectivity self w)).
  destruct b1; cbn [negb]; [|step_failed].
  destruct (create_directories_returns self w1) as [[b2 H2] R2].
  rewrite (bind_result _ _ _ _ H2); cbv beta.
  set (w2 := final (create_directories self w1)).
  destruct b2; cbn [negb]; [|step_failed].
  destruct (deploy_library_returns self w2) as [X3 _].
  destruct (result (deploy_library self w2)) as [b3|exc] eqn:H3.
  2:{ rewrite (bind_raised _ _ _ _ H3). cbn [prepend result events].
      destruct (X3 exc eq_refl) as (Q3 & _).
      repeat split; try assumption.
      rewrite !raised_in_app, Q3.
      rewrite (quiet_when_true _ _ R1 H1), (quiet_when_true _ _ R2 H2).
      reflexivity. }
  rewrite (bind_result _ _ _ _ H3); cbv beta.
  set (w3 := final (deploy_library self w2)).
  destruct b3; cbn [negb]; [|step_failed].
  destruct (initialize_protection_returns self w3) as [[b4 H4] _].
  rewrite (bind_result _ _ _ _ H4); cbv beta.
  set (w4 := final (initialize_protection self w3)).
  destruct b4; cbn [negb]; [|step_failed].
  destruct (verify_deployment_returns self w4) as (success & checks & H5 & _).
  rewrite (bind_result _ _ _ _ H5); cbv beta iota.
  destruct success; rewrite !bind_log; unfold pure;
    cbn [prepend result events].
  - discriminate.
  - intros _. rewrite !existsb_app.
    cbn [existsb is_error_line]. now rewrite ?orb_true_r.
Qed.
End WorkflowRuns.

Section WorkflowCalls.
Context `{Host}.
Variable self : SlaveDeployer.

Lemma check_connectivity_calls (w : world) :
  ssh_calls (events (check_connectivity self w))
    = [("echo test", 300, ssh_reply "echo test" 300 w)]
  /\ rsync_calls (events (check_connectivity self w)) = [].
Proof.
  unfold check_connectivity. run_method.
  destruct (ssh_reply "echo test" 300 w) as [ret out err|exc]; run_method.
  - destruct ((ret =? 0) && contains "test" out); read_trace; now split.
  - read_trace. now split.
Qed.

Lemma initialize_protection_calls (w : world) :
  ssh_calls (events (initialize_protection self w))
    = [(init_command self, 60, ssh_reply (init_command self) 60 w)]
  /\ rsync_calls (events (initialize_protection self w)) = [].
Proof.
  unfold initialize_protection. run_method.
  destruct (ssh_reply (init_command self) 60 w) as [ret out err|exc];
    run_method.
  - destruct (ret =? 0); run_method; read_trace; now split.
  - read_trace. now split.
Qed.

Lemma create_directories_calls (w : world) :
  result (create_directories self w)
    = Val (forallb probe_ok
             (ssh_replies (mkdir_commands self) DEFAULT_SSH_TIMEOUT w))
  /\ ssh_calls (events (create_directories self w))
     = upto_first_failure
         (calls_in_sequence (mkdir_commands self) DEFAULT_SSH_TIMEOUT w)
  /\ rsync_calls (events (create_directories self w)) = [].
Proof.
  destruct (create_directories_loop_run (directories self)
              (log INFO "✓ Directories created" ;; pure true) w)
    as (Hres & Hcalls & Hrsync); [intros w'; repeat split|].
  assert (Hrun : create_directories self w
                 = prepend [EvLog INFO "Creating directories on slave..."]
                     (create_directories_loop (directories self)
                        (log INFO "✓ Directories created" ;; pure true) w))
    by reflexivity.
  rewrite Hrun. cbn [prepend result events app ssh_calls rsync_calls].
  now repeat split.
Qed.

(** The steps behind a [deploy_full] that returned true. *)
Lemma deploy_full_true_steps (w : world) :
  let connectivity := check_connectivity self w in
  let directories := create_directories self (final connectivity) in
  let library := deploy_library self (final directories) in
  let protection := initialize_protection self (final library) in
  let verification := verify_deployment self (final protection) in
  result (deploy_full self w) = Val true ->
  result connectivity = Val true
  /\ result directories = Val true
  /\ result library = Val true
  /\ result protection = Val true
  /\ exists checks, result verification = Val (true, checks).
Proof.
  cbv zeta. unfold deploy_full.
  do 3 (rewrite result_bind; cbn [log result final]).
  rewrite result_bind.
  destruct (result (check_connectivity self w)) as [[|]|e]; cbn [negb];
    [| rewrite result_bind; cbn [log pure result final]; discriminate
     | discriminate ].
  rewrite result_bind.
  destruct (result (create_directories self _)) as [[|]|e]; cbn [negb];
    [| rewrite result_bind; cbn [log pure result final]; discriminate
     | discriminate ].
  rewrite result_bind.
  destruct (result (deploy_library self _)) as [[|]|e]; cbn [negb];
    [| rewrite result_bind; cbn [log pure result final]; discriminate
     | discriminate ].
  rewrite result_bind.
  destruct (result (initialize_protection self _)) as [[|]|e]; cbn [negb];
    [| rewrite result_bind; cbn [log pure result final]; discriminate
     | discriminate ].
  rewrite result_bind.
  destruct (result (verify_deployment self _)) as [[[|] checks]|e].
  - intros _. repeat split. now exists checks.
  - do 3 (rewrite result_bind; cbn [log pure result final]). discriminate.
  - discriminate.
Qed.

(** X7.  No exception of the channel or of the copy tool reaches the caller
    of [deploy_full]: a run in which one was raised returns a boolean.  The
    only exception [deploy_full] lets through is one raised by a local
    existence check of [deploy_library], reached after the connectivity and
    directory steps returned true.  A run that returns false has logged at
    least one line at the error level. *)
Theorem deploy_full_reports_failure (w : world) :
  let w1 := final (check_connectivity self w) in
  let w2 := final (create_directories self w1) in
  (raised_in (events (deploy_full self w)) = true ->
   exists b, result (deploy_full self w) = Val b)
  /\ (forall exc,
        result (deploy_full self w) = Exn exc ->
        result (check_connectivity self w) = Val true
        /\ result (create_directories self w1) = Val true
        /\ result (deploy_library self w2) = Exn exc
        /\ (path_exists (local_lib_path self) w2 = Exn exc
            \/ path_exists (library_file self) w2 = Exn exc))
  /\ (result (deploy_full self w) = Val false ->
      exists msg, In (EvLog ERROR msg) (events (deploy_full self w))).
Proof.
  cbv zeta. pose proof (deploy_full_outcome self w) as Hend. cbv zeta in Hend.
  destruct (result (deploy_full self w)) as [b|exc].
  - split; [eauto|]. split; [intros e E; discriminate E|].
    intros E. assert (Hb : b = false) by congruence.
    apply Hend in Hb. apply existsb_exists in Hb.
    destruct Hb as ([c t r|a t r|p f|[] msg] & Hin & Hline);
      try discriminate Hline.
    now exists msg.
  - destruct Hend as (Hc & Hd & Hl & Hq).
    split; [rewrite Hq; discriminate|]. split; [|discriminate].
    intros e [= <-]. repeat split; try assumption.
    pose proof (deploy_library_returns self
                  (final (create_directories self
                            (final (check_connectivity self w))))) as [Hexn _].
    destruct (Hexn exc Hl) as (_ & _ & _ & _ & [Hp|[_ Hp]]); auto.
Qed.

(** X8.  A [deploy_full] that returns true has issued exactly these remote
    commands, in this order and with these timeouts: the connectivity probe
    (300), the three [mkdir] of [create_directories], the [mkdir] of the
    deploy path, the [mkdir] of the library's parent directory, the [chmod],
    the initialization (60) and the four verification probes; and it has
    started the copy tool exactly once. *)
Theorem deploy_full_success_commands (w : world) :
  result (deploy_full self w) = Val true ->
  map fst (ssh_calls (events (deploy_full self w)))
    = ([("echo test", 300)]
         ++ map (fun c => (c, DEFAULT_SSH_TIMEOUT)) (mkdir_commands self)
         ++ [ (deploy_mkdir_command self, DEFAULT_SSH_TIMEOUT);
              (copy_mkdir_command (remote_library self), DEFAULT_SSH_TIMEOUT);
              (chmod_command self, DEFAULT_SSH_TIMEOUT);
              (init_command self, 60) ]
         ++ map (fun c => (c, DEFAULT_SSH_TIMEOUT)) (verification_probes self))%list
  /\ map fst (rsync_calls (events (deploy_full self w)))
     = [(rsync_cmd self (library_file self) (remote_library self), 60)].
Proof.
  intros Htrue.
  destruct (deploy_full_true_steps w Htrue) as (Hc & Hd & Hl & Hp & checks & Hv).
  rewrite (deploy_full_passing self w Hc Hd Hl Hp true checks Hv).
  cbn [events]. unfold opening, closing.
  set (w1 := final (check_connectivity self w)) in *.
  set (w2 := final (create_directories self w1)) in *.
  set (w3 := final (deploy_library self w2)) in *.
  set (w4 := final (initialize_protection self w3)) in *.
  destruct (check_connectivity_calls w) as [Sc Rc].
  destruct (create_directories_calls w1) as (Dres & Sd & Rd).
  destruct (deploy_library_run self w2) as (Lres & Rl & Sl).
  destruct (initialize_protection_calls w3) as [Sp Rp].
  destruct (verify_deployment_probes self w4) as (Sv & Rv & _).
  cbv zeta in Lres, Rl, Sl.
  rewrite Hd, <- map_snd_calls_in_sequence in Dres.
  apply Val_eq in Dres.
  rewrite (upto_first_failure_all _ (eq_sym Dres)) in Sd.
  rewrite Hl in Lres. cbn [returned_true] in Lres. symmetry in Lres.
  apply andb_true_iff in Lres as [Lall Lcopy].
  apply andb_true_iff in Lall as [Lfound Lmk].
  rewrite Lfound, Lmk in Rl, Sl. cbn [andb] in Rl. rewrite Lcopy in Sl.
  pose proof (_copy_to_slave_run self (library_file self)
                (remote_library self)
                (ssh_next (deploy_mkdir_command self) DEFAULT_SSH_TIMEOUT w2))
    as [R Scopy].
  cbv zeta in R.
  rewrite _copy_to_slave_returned_true in Lcopy.
  apply andb_true_iff in Lcopy as [Lmk' Lcp].
  destruct (ssh_reply (copy_mkdir_command (remote_library self))
              DEFAULT_SSH_TIMEOUT _) as [ret out err|exc];
    [|discriminate Lmk'].
  cbn [probe_ok] in Lmk'. rewrite Lmk' in R. destruct R as (_ & Rcopy & _).
  rewrite Scopy in Sl. rewrite Rcopy in Rl.
  split.
  - cbn [app ssh_calls]. rewrite !ssh_calls_app, Sc, Sd, Sl, Sp, Sv.
    cbn [ssh_calls app map fst].
    repeat (rewrite map_app; cbn [map fst app]).
    rewrite !map_fst_calls_in_sequence, ?app_nil_r. reflexivity.
  - cbn [app rsync_calls]. rewrite !rsync_calls_app, Rc, Rd, Rl, Rp, Rv.
    reflexivity.
Qed.
End WorkflowCalls.

(** ** Checking a deployment *)

Section Checking.
Context `{Host}.
Variable self : SlaveDeployer.

Lemma forallb_upto_first_failure (P : string * Z * reply -> bool)
    (calls : list (string * Z * reply)) :
  forallb P calls = true -> forallb P (upto_first_failure calls) = true.
Proof.
  induction calls as [|call rest IH]; [reflexivity|].
  cbn [forallb upto_first_failure]. intros Hall.
  apply andb_true_iff in Hall as [Hcall Hrest].
  destruct (probe_ok (snd call)); cbn [forallb]; rewrite Hcall;
    [now rewrite IH | reflexivity].
Qed.

Lemma probes_in_sequence (commands : list string) (timeout : Z) (w : world) :
  forallb is_probe commands = true ->
  forallb (fun call => is_probe (fst (fst call)))
    (calls_in_sequence commands timeout w) = true.
Proof.
  revert w. induction commands as [|c cs IH]; intros w; [reflexivity|].
  rewrite calls_in_sequence_cons. cbn [forallb fst]. intros Hall.
  apply andb_true_iff in Hall as [Hc Hcs]. now rewrite Hc, IH.
Qed.

Lemma verification_probes_are_probes :
  forallb is_probe (verification_probes self) = true.
Proof.
  unfold verification_probes, is_probe. reflexivity.
Qed.

Lemma is_deployed_loop_quiet (checks : list string) (w : world) :
  rsync_calls (events (is_deployed_loop checks w)) = []
  /\ (result (is_deployed_loop checks w) = Val true ->
      final (is_deployed_loop checks w)
      = ssh_after checks DEFAULT_SSH_TIMEOUT w).
Proof.
  revert w. induction checks as [|check rest IH]; intros w.
  - split; reflexivity.
  - cbn [is_deployed_loop ssh_after]. run_method.
    destruct (ssh_reply check DEFAULT_SSH_TIMEOUT w) as [ret out err|exc];
      run_method.
    + destruct (ret =? 0); run_method; read_trace.
      * exact (IH _).
      * split; [reflexivity | discriminate].
    + read_trace. split; [reflexivity | discriminate].
Qed.

(** The flag of [verify_deployment] is the conjunction of its probes. *)
Lemma verify_deployment_flag (w : world) :
  exists checks,
    result (verify_deployment self w)
    = Val (forallb probe_ok
             (ssh_replies (verification_probes self) DEFAULT_SSH_TIMEOUT w),
           checks).
Proof.
  destruct (verify_deployment_probes self w)
    as (_ & _ & all_passed & checks & Hres & _ & Hmap & Hall).
  exists checks. rewrite Hres. do 2 f_equal. rewrite Hall. clear - Hmap.
  revert checks Hmap.
  induction (ssh_replies _ _ _) as [|r rs IH]; intros [|c cs] Hmap;
    try discriminate; [reflexivity|].
  cbn [map forallb] in *. apply (f_equal (@tl bool)) in Hmap as Hcs.
  apply (f_equal (@hd bool true)) in Hmap. cbn [hd tl] in *.
  rewrite Hmap. f_equal. now apply IH.
Qed.

(** X9.  The text of every remote command that [is_deployed] or
    [verify_deployment] issues starts with [test ], and neither of the two
    starts the copy tool.  (The deploy path is put into the command text as
    it is, so this is a fact about how each command line begins, not about
    what the remote shell makes of the rest of it.) *)
Theorem checks_only_test (w : world) :
  forallb (fun call => is_probe (fst (fst call)))
    (ssh_calls (events (is_deployed self w))) = true
  /\ rsync_calls (events (is_deployed self w)) = []
  /\ forallb (fun call => is_probe (fst (fst call)))
       (ssh_calls (events (verify_deployment self w))) = true
  /\ rsync_calls (events (verify_deployment self w)) = [].
Proof.
  destruct (is_deployed_loop_run (critical_checks self) w) as [_ Hcalls].
  destruct (is_deployed_loop_quiet (critical_checks self) w) as [Hquiet _].
  destruct (verify_deployment_probes self w) as (Hv & Hr & _).
  fold (is_deployed self) in Hcalls, Hquiet.
  rewrite Hcalls, Hv.
  split; [|split; [exact Hquiet|split; [|exact Hr]]].
  - apply forallb_upto_first_failure, probes_in_sequence.
    unfold critical_checks, is_probe. reflexivity.
  - apply probes_in_sequence, verification_probes_are_probes.
Qed.

(** X10.  From the same world, [verify_deployment] reports that all checks
    passed exactly when [is_deployed] returns true and the probe of the
    state directory, issued after the three probes they share, exits 0. *)
Theorem verified_iff_deployed_and_state_dir (w : world) :
  let state_dir :=
    ssh_reply ("test -d " ++ DEFAULT_STATE_DIR) DEFAULT_SSH_TIMEOUT
      (ssh_after (critical_checks self) DEFAULT_SSH_TIMEOUT w) in
  (exists checks, result (verify_deployment self w) = Val (true, checks))
  <-> result (is_deployed self w) = Val true /\ probe_ok state_dir = true.
Proof.
  intros state_dir.
  destruct (verify_deployment_flag w) as [checks Hv].
  destruct (is_deployed_loop_run (critical_checks self) w) as [Hd _].
  fold (is_deployed self) in Hd. rewrite Hv, Hd.
  unfold verification_probes, critical_checks in *.
  cbn [ssh_replies forallb ssh_after] in *. fold state_dir.
  rewrite !andb_true_r.
  set (b1 := probe_ok _). set (b2 := probe_ok _). set (b3 := probe_ok _).
  destruct b1, b2, b3, (probe_ok state_dir); cbn [andb]; split;
    try (intros [cs E]; discriminate E);
    try (intros [E E']; (discriminate E || discriminate E'));
    try (intros _; split; reflexivity);
    intros _; now exists checks.
Qed.

(** X11.  [verify_deployment] ends by logging, at the info level and in
    order, one indented line for each entry of the list it returns. *)
Theorem verify_deployment_logs_entries (w : world) :
  exists all_passed checks before,
    result (verify_deployment self w) = Val (all_passed, checks)
    /\ events (verify_deployment self w)
       = (before ++ map (fun check => EvLog INFO ("  " ++ check)) checks)%list.
Proof.
  unfold verify_deployment.
  rewrite bind_log; cbv beta.
  do 4 (erewrite bind_val by apply check_block_run; cbv beta iota).
  erewrite bind_val by apply log_checks_run; cbv beta.
  unfold pure. cbn [prepend result final events].
  eexists. eexists. eexists. split; [reflexivity|].
  rewrite app_nil_r, !app_assoc. reflexivity.
Qed.
End Checking.

(** ** The commands of any run of deploy_full *)

Section WorkflowPrefix.
Context `{Host}.
Variable self : SlaveDeployer.

(** The remote calls of [deploy_full] are those of its steps, a step being
    run when the one before it returned true. *)
Lemma deploy_full_calls (w : world) :
  let connectivity := check_connectivity self w in
  let directories := create_directories self (final connectivity) in
  let library := deploy_library self (final directories) in
  let protection := initialize_protection self (final library) in
  let verification := verify_deployment self (final protection) in
  ssh_calls (events (deploy_full self w))
  = (ssh_calls (events connectivity)
       ++ (if returned_true (result connectivity) then
             ssh_calls (events directories)
               ++ (if returned_true (result directories) then
                     ssh_calls (events library)
                       ++ (if returned_true (result library) then
                             ssh_calls (events protection)
                               ++ (if returned_true (result protection)
                                   then ssh_calls (events verification)
                                   else [])
                           else [])
                   else [])
           else []))%list
  /\ rsync_calls (events (deploy_full self w))
     = (if returned_true (result connectivity)
           && returned_true (result directories)
        then rsync_calls (events library) else []).
Proof.
  cbv zeta.
  destruct (check_connectivity_returns self w) as [[b1 H1] _].
  destruct (check_connectivity_calls self w) as [_ R1].
  unfold deploy_full. rewrite !bind_log; cbv beta.
  rewrite (bind_result _ _ _ _ H1); cbv beta. rewrite H1.
  set (w1 := final (check_connectivity self w)).
  destruct b1; cbn [negb returned_true andb];
    [|rewrite bind_log; unfold pure;
      cbn [prepend events app ssh_calls rsync_calls];
      rewrite !ssh_calls_app, !rsync_calls_app, R1; now split].
  destruct (create_directories_returns self w1) as [[b2 H2] _].
  destruct (create_directories_calls self w1) as (_ & _ & R2).
  rewrite (bind_result _ _ _ _ H2); cbv beta. rewrite H2.
  set (w2 := final (create_directories self w1)).
  destruct b2; cbn [negb returned_true andb];
    [|rewrite bind_log; unfold pure;
      cbn [prepend events app ssh_calls rsync_calls];
      rewrite !ssh_calls_app, !rsync_calls_app, R1, R2;
      cbn [ssh_calls app]; rewrite !app_nil_r; now split].
  destruct (result (deploy_library self w2)) as [b3|exc] eqn:H3.
  2:{ rewrite (bind_raised _ _ _ _ H3).
      cbn [prepend events app ssh_calls rsync_calls returned_true].
      rewrite !ssh_calls_app, !rsync_calls_app, R1, R2;
      cbn [ssh_calls rsync_calls app]; rewrite !app_nil_r; now split. }
  rewrite (bind_result _ _ _ _ H3); cbv beta.
  set (w3 := final (deploy_library self w2)).
  destruct b3; cbn [negb returned_true andb];
    [|rewrite bind_log; unfold pure;
      cbn [prepend events app ssh_calls rsync_calls];
      rewrite !ssh_calls_app, !rsync_calls_app, R1, R2;
      cbn [ssh_calls rsync_calls app]; rewrite !app_nil_r; now split].
  destruct (initialize_protection_returns self w3) as [[b4 H4] _].
  destruct (initialize_protection_calls self w3) as [_ R4].
  rewrite (bind_result _ _ _ _ H4); cbv beta. rewrite H4.
  set (w4 := final (initialize_protection self w3)).
  destruct b4; cbn [negb returned_true andb];
    [|rewrite bind_log; unfold pure;
      cbn [prepend events app ssh_calls rsync_calls];
      rewrite !ssh_calls_app, !rsync_calls_app, R1, R2, R4;
      cbn [ssh_calls rsync_calls app]; rewrite !app_nil_r; now split].
  destruct (verify_deployment_returns self w4) as (success & checks & H5 & _).
  destruct (verify_deployment_probes self w4) as (_ & R5 & _).
  rewrite (bind_result _ _ _ _ H5); cbv beta iota.
  destruct success; rewrite !bind_log; unfold pure;
    cbn [prepend events app ssh_calls rsync_calls];
    rewrite !ssh_calls_app, !rsync_calls_app, R1, R2, R4, R5;
    cbn [ssh_calls rsync_calls app]; rewrite !app_nil_r; now split.
Qed.
End WorkflowPrefix.

(** Closes a goal that asks for what is left of the workflow's commands. *)
Ltac rest_of_commands :=
  rewrite ?app_nil_r, ?map_app; cbn [map fst app];
  rewrite ?map_app; cbn [map fst app];
  rewrite <- ?app_assoc; cbn [app];
  rewrite ?map_fst_calls_in_sequence;
  eexists; reflexivity.

Section WorkflowOrder.
Context `{Host}.
Variable self : SlaveDeployer.

(** X12.  Whatever the host replies, the remote commands [deploy_full] has
    issued when it returns are an initial part of one fixed sequence (the
    probe, three [mkdir], the two [mkdir] and the [chmod] of the library, the
    initialization, four verification probes), each with its timeout; and
    the copy tool has been started at most once. *)
Theorem deploy_full_commands_in_order (w : world) :
  (exists rest,
      workflow_commands self
      = (map fst (ssh_calls (events (deploy_full self w))) ++ rest)%list)
  /\ (length (rsync_calls (events (deploy_full self w))) <= 1)%nat.
Proof.
  destruct (deploy_full_calls self w) as [Hs Hr]. cbv zeta in Hs, Hr.
  rewrite Hs, Hr. clear Hs Hr.
  set (w1 := final (check_connectivity self w)).
  set (w2 := final (create_directories self w1)).
  set (w3 := final (deploy_library self w2)).
  set (w4 := final (initialize_protection self w3)).
  destruct (check_connectivity_calls self w) as [Sc _].
  destruct (create_directories_calls self w1) as (Dres & Sd & _).
  destruct (deploy_library_run self w2) as (Lres & Rl & Sl).
  destruct (initialize_protection_calls self w3) as [Sp _].
  destruct (verify_deployment_probes self w4) as (Sv & _ & _).
  cbv zeta in Lres, Rl, Sl.
  pose proof (_copy_to_slave_run self (library_file self)
                (remote_library self)
                (ssh_next (deploy_mkdir_command self) DEFAULT_SSH_TIMEOUT w2))
    as [Rcopy Scopy].
  cbv zeta in Rcopy.
  split.
  - rewrite Sc, Sd, Sl, Sp, Sv, Scopy. unfold workflow_commands.
    destruct (returned_true (result (check_connectivity self w)));
      [|rest_of_commands].
    rewrite Dres. cbn [returned_true].
    destruct (upto_first_failure_prefix
                (calls_in_sequence (mkdir_commands self) DEFAULT_SSH_TIMEOUT w1))
      as [skipped Hskipped].
    destruct (forallb probe_ok _) eqn:Dall.
    2:{ assert (E : map (fun c => (c, DEFAULT_SSH_TIMEOUT)) (mkdir_commands self)
                    = (map fst
                         (upto_first_failure
                            (calls_in_sequence (mkdir_commands self)
                               DEFAULT_SSH_TIMEOUT w1))
                         ++ map fst skipped)%list).
        { rewrite <- map_app, <- Hskipped. symmetry.
          apply map_fst_calls_in_sequence. }
        rewrite E. rest_of_commands. }
    rewrite <- map_snd_calls_in_sequence in Dall.
    rewrite (upto_first_failure_all _ Dall).
    rewrite Lres.
    destruct (returned_true (path_exists (local_lib_path self) w2)
              && returned_true (path_exists (library_file self) w2));
      cbn [andb]; [|rest_of_commands].
    destruct (probe_ok (ssh_reply (deploy_mkdir_command self) _ w2));
      cbn [andb returned_true]; [|rest_of_commands].
    destruct (returned_true (result (_copy_to_slave _ _ _ _)));
      cbn [returned_true]; [|rest_of_commands].
    destruct (returned_true (result (initialize_protection self w3)));
      rest_of_commands.
  - destruct (returned_true (result (check_connectivity self w))
              && returned_true (result (create_directories self w1)));
      [|cbn [length]; lia].
    rewrite Rl.
    destruct (returned_true (path_exists _ _)
              && returned_true (path_exists _ _) && probe_ok _);
      [|cbn [length]; lia].
    destruct (ssh_reply (copy_mkdir_command (remote_library self)) _ _)
      as [ret out err|exc].
    + destruct (ret =? 0).
      * destruct Rcopy as (_ & -> & _). cbn [length]. lia.
      * destruct Rcopy as (_ & _ & ->). cbn [length]. lia.
    + destruct Rcopy as (_ & _ & ->). cbn [length]. lia.
Qed.
End WorkflowOrder.

(** ** The command line *)

Section CommandLine.
Context `{Host}.

Lemma is_deployed_probes_only (self : SlaveDeployer) (w : world) :
  forallb (fun call => is_probe (fst (fst call)))
    (ssh_calls (events (is_deployed self w))) = true
  /\ rsync_calls (events (is_deployed self w)) = []
  /\ exists b, result (is_deployed self w) = Val b.
Proof.
  destruct (is_deployed_loop_run (critical_checks self) w) as [Hres Hcalls].
  destruct (is_deployed_loop_quiet (critical_checks self) w) as [Hquiet _].
  fold (is_deployed self) in Hres, Hcalls, Hquiet.
  rewrite Hcalls. split; [|split; [exact Hquiet | eauto]].
  apply forallb_upto_first_failure, probes_in_sequence.
  unfold critical_checks, is_probe. reflexivity.
Qed.

Lemma verify_deployment_probes_only (self : SlaveDeployer) (w : world) :
  forallb (fun call => is_probe (fst (fst call)))
    (ssh_calls (events (verify_deployment self w))) = true
  /\ rsync_calls (events (verify_deployment self w)) = [].
Proof.
  destruct (verify_deployment_probes self w) as (Hv & Hr & _).
  rewrite Hv. split; [|exact Hr].
  apply probes_in_sequence, verification_probes_are_probes.
Qed.

(** [update_library] ends as [deploy_library] does, and meets the same
    exceptions. *)
Lemma update_library_run (self : SlaveDeployer) (w : world) :
  result (update_library self w) = result (deploy_library self w)
  /\ raised_in (events (update_library self w))
     = raised_in (events (deploy_library self w)).
Proof.
  unfold update_library. rewrite bind_log. cbv beta.
  destruct (result (deploy_library self w)) as [b|exc] eqn:Hb.
  - rewrite (bind_result _ _ _ _ Hb).
    destruct b; cbn [negb]; rewrite bind_log; unfold pure;
      cbn [prepend result events];
      rewrite !raised_in_app; cbn [app]; rewrite !raised_in_cons;
      cbn [raises orb]; rewrite ?raised_in_app; cbn [app];
      rewrite ?raised_in_cons; cbn [raises orb];
      change (raised_in []) with false; rewrite ?orb_false_r; now split.
  - rewrite (bind_raised _ _ _ _ Hb). cbn [prepend result events app].
    rewrite raised_in_cons. now split.
Qed.

(** [main] on a namespace with [check_only] set ends with an exit status. *)
Lemma main_check_only_run (package_dir : string) (args : Args) (w : world) :
  args_check_only args = true ->
  exists out code,
    result (main package_dir (Namespace args) w) = Val (out, code)
    /\ (code = 0 \/ code = 1).
Proof.
  intros Hmode. unfold main. rewrite Hmode. cbv zeta.
  set (deployer := __init__ _ _ _ _ None).
  destruct (is_deployed_probes_only deployer w) as (_ & _ & b & Hb).
  rewrite (bind_result _ _ _ _ Hb); cbv beta.
  destruct b.
  - destruct (verify_deployment_returns deployer (final (is_deployed deployer w)))
      as (success & checks & Hv & _).
    rewrite (bind_result _ _ _ _ Hv); cbv beta iota.
    unfold pure. cbn [prepend result].
    destruct success; eexists; eexists; split; try reflexivity; auto.
  - unfold pure. cbn [prepend result].
    eexists. eexists. split; [reflexivity | auto].
Qed.

(** X13.  When [parse_args] returns a namespace with [check_only] set
    ([update_only] set or not), [main] sends the slave only commands whose
    text starts with [test ], and does not start the copy tool.  It writes one
    line, by the result of [is_deployed], and its exit status is 0 exactly
    when [is_deployed] returns true and the verification that follows
    reports all checks passed; so it can write that the slave is deployed
    and end with the status 1. *)
Theorem main_check_only (package_dir : string) (args : Args) (w : world) :
  args_check_only args = true ->
  let deployer := main_deployer package_dir args in
  let deployed := is_deployed deployer w in
  let verification := verify_deployment deployer (final deployed) in
  let run := main package_dir (Namespace args) w in
  forallb (fun call => is_probe (fst (fst call))) (ssh_calls (events run))
    = true
  /\ rsync_calls (events run) = []
  /\ exists code,
       result run
       = Val ([if returned_true (result deployed) then "Slave is deployed"
               else "Slave is NOT deployed"], code)
       /\ (code = 0 \/ code = 1)
       /\ (code = 0 <->
           result deployed = Val true
           /\ exists checks, result verification = Val (true, checks)).
Proof.
  intros Hmode deployer deployed verification run. subst run.
  unfold main. rewrite Hmode. cbv zeta.
  change (__init__ _ _ _ _ None) with deployer.
  destruct (is_deployed_probes_only deployer w) as (Pd & Rd & b & Hb).
  fold deployed in Pd, Rd, Hb.
  rewrite (bind_result _ _ _ _ Hb); cbv beta. fold deployed. rewrite Hb.
  destruct b; cbn [returned_true].
  - destruct (verify_deployment_probes_only deployer (final deployed))
      as [Pv Rv].
    destruct (verify_deployment_returns deployer (final deployed))
      as (success & checks & Hv & _).
    fold verification in Pv, Rv, Hv.
    rewrite (bind_result _ _ _ _ Hv); cbv beta iota. fold verification.
    unfold pure. cbn [prepend result events].
    rewrite !ssh_calls_app, !rsync_calls_app, !forallb_app, Pd, Pv, Rd, Rv.
    split; [reflexivity|]. split; [reflexivity|].
    rewrite Hv. destruct success.
    + exists 0. repeat split; eauto.
    + exists 1. repeat split; eauto; try discriminate.
      intros (_ & cs & E). discriminate E.
  - unfold pure. cbn [prepend result events].
    rewrite !ssh_calls_app, !rsync_calls_app, !forallb_app, Pd, Rd.
    split; [reflexivity|]. split; [reflexivity|].
    exists 1. repeat split; eauto; try discriminate.
    intros (E & _). discriminate E.
Qed.

(** X14.  When [parse_args] ends the process, [main] runs nothing: the exit
    status and the output are those of [argparse], and nothing is asked of
    the slave.  Otherwise a [main] that returns ends with the status 0 or 1.
    No exception of the channel or of the copy tool leaves [main]: a run in
    which one was raised ends with an exit status.  Without [check_only],
    [main] writes nothing and ends with 0 when the operation it ran
    ([update_library] with [update_only], [deploy_full] otherwise) returned
    true, with 1 when it returned false, and with the operation's exception
    when it raised. *)
Theorem main_exit_code (package_dir : string) (parsed : parse_result)
    (w : world) :
  let run := main package_dir parsed w in
  (forall status output,
      parsed = SystemExit status output -> run = Run (Val (output, status)) w [])
  /\ (forall out code,
        result run = Val (out, code) ->
        code = 0 \/ code = 1 \/ exists output, parsed = SystemExit code output)
  /\ (raised_in (events run) = true ->
      exists out code, result run = Val (out, code))
  /\ (forall args,
        parsed = Namespace args ->
        args_check_only args = false ->
        let deployer := main_deployer package_dir args in
        let operation :=
          if args_update_only args then update_library deployer
          else deploy_full deployer in
        result run
        = match result (operation w) with
          | Val ok => Val ([], if ok then 0 else 1)
          | Exn exc => Exn exc
          end).
Proof.
  intros run. subst run.
  destruct parsed as [args|status output].
  2:{ split; [intros s o [= <- <-]; reflexivity|].
      split; [intros out code [= <- <-]; right; right; eauto|].
      split; [discriminate | discriminate]. }
  split; [discriminate|].
  destruct (args_check_only args) eqn:Hmode.
  { destruct (main_check_only_run package_dir args w Hmode)
      as (out & code & Hres & Hcode).
    split; [|split; [eauto|]].
    - intros o c E. rewrite Hres in E.
      assert (code = c) as <- by congruence. destruct Hcode; auto.
    - intros a E Hcheck. assert (args = a) as <- by congruence.
      rewrite Hmode in Hcheck. discriminate Hcheck. }
  unfold main. rewrite Hmode. cbv zeta.
  change (__init__ _ _ _ _ None) with (main_deployer package_dir args).
  set (deployer := main_deployer package_dir args).
  destruct (args_update_only args) eqn:Hupd.
  - destruct (update_library_run deployer w) as [Hres Hraised].
    destruct (deploy_library_returns deployer w) as [Hexn Hcaught].
    destruct (result (update_library deployer w)) as [b|exc] eqn:Hb.
    + rewrite (bind_result _ _ _ _ Hb). unfold pure.
      cbn [prepend result events].
      split; [intros o c [= <- <-]; destruct b; auto|].
      split; [eauto|]. intros a E _. assert (args = a) as <- by congruence.
        cbv zeta. rewrite Hupd. fold deployer. rewrite Hb. reflexivity.
    + rewrite (bind_raised _ _ _ _ Hb). cbn [result events].
      split; [discriminate|]. split.
      * rewrite Hraised. symmetry in Hres.
        destruct (Hexn exc Hres) as [Hq _]. rewrite Hq. discriminate.
      * intros a E _. assert (args = a) as <- by congruence.
        cbv zeta. rewrite Hupd. fold deployer. rewrite Hb. reflexivity.
  - pose proof (deploy_full_outcome deployer w) as Hend. cbv zeta in Hend.
    destruct (result (deploy_full deployer w)) as [b|exc] eqn:Hb.
    + rewrite (bind_result _ _ _ _ Hb). unfold pure.
      cbn [prepend result events].
      split; [intros o c [= <- <-]; destruct b; auto|].
      split; [eauto|]. intros a E _. assert (args = a) as <- by congruence.
        cbv zeta. rewrite Hupd. fold deployer. rewrite Hb. reflexivity.
    + rewrite (bind_raised _ _ _ _ Hb). cbn [result events].
      destruct Hend as (_ & _ & _ & Hq).
      split; [discriminate|]. split; [rewrite Hq; discriminate|].
      intros a E _. assert (args = a) as <- by congruence.
        cbv zeta. rewrite Hupd. fold deployer. rewrite Hb. reflexivity.
Qed.
End CommandLine.

(** ** After a successful deployment *)

Section AfterSuccess.
Context `{Host}.
Variable self : SlaveDeployer.

Lemma verify_deployment_final (w : world) :
  final (verify_deployment self w)
  = ssh_after (verification_probes self) DEFAULT_SSH_TIMEOUT w.
Proof.
  unfold verify_deployment, verification_probes.
  rewrite bind_log; cbv beta.
  do 4 (erewrite bind_val by apply check_block_run; cbv beta iota).
  erewrite bind_val by apply log_checks_run; cbv beta.
  reflexivity.
Qed.

(** X15.  On a host where issuing a verification probe does not change
    what the three critical probes answer, a [deploy_full] that returned
    true is followed by an [is_deployed] that returns true. *)
Theorem deployed_after_success (w : world) :
  (forall probe command w',
      In probe (verification_probes self) ->
      In command (critical_checks self) ->
      ssh_reply command DEFAULT_SSH_TIMEOUT
        (ssh_next probe DEFAULT_SSH_TIMEOUT w')
      = ssh_reply command DEFAULT_SSH_TIMEOUT w') ->
  result (deploy_full self w) = Val true ->
  result (is_deployed self (final (deploy_full self w))) = Val true.
Proof.
  intros Hsame Htrue.
  destruct (deploy_full_true_steps self w Htrue)
    as (Hc & Hd & Hl & Hp & checks & Hv).
  rewrite (deploy_full_passing self w Hc Hd Hl Hp true checks Hv).
  cbn [final]. rewrite verify_deployment_final.
  set (w4 := final (initialize_protection self _)) in *.
  destruct (verify_deployment_flag self w4) as [checks' Hflag].
  rewrite Hv in Hflag.
  assert (Hall : forallb probe_ok
                   (ssh_replies (verification_probes self)
                      DEFAULT_SSH_TIMEOUT w4) = true) by congruence.
  clear - Hsame Hall.
  destruct (is_deployed_loop_run (critical_checks self)
              (ssh_after (verification_probes self) DEFAULT_SSH_TIMEOUT w4))
    as [Hd _].
  fold (is_deployed self) in Hd. rewrite Hd. f_equal. clear Hd.
  unfold verification_probes, critical_checks in *.
  cbn [ssh_replies ssh_after forallb] in *.
  repeat (rewrite Hsame in Hall by (cbn [In]; auto 10)).
  repeat (rewrite Hsame by (cbn [In]; auto 10)).
  rewrite !andb_true_r in *.
  apply andb_true_iff in Hall as [H1 Hall].
  apply andb_true_iff in Hall as [H2 Hall].
  apply andb_true_iff in Hall as [H3 _].
  now rewrite H1, H2, H3.
Qed.
End AfterSuccess.

(** * More runs on concrete hosts *)

(** X8 on the healthy host: twelve remote commands and one copy. *)
Lemma deploy_full_success_commands_witness :
  map fst (ssh_calls (events (@deploy_full healthy_host a_deployer tt)))
  = [ ("echo test", 300);
      ("mkdir -p /root/kernel-bisect/lib", 30);
      ("mkdir -p /var/lib/kernel-bisect", 30);
      ("mkdir -p /var/log", 30);
      ("mkdir -p /root/kernel-bisect/lib", 30);
      ("mkdir -p /root/kernel-bisect/lib", 30);
      ("chmod +x /root/kernel-bisect/lib/bisect-functions.sh", 30);
      ("source /root/kernel-bisect/lib/bisect-functions.sh && init_protection",
       60);
      ("test -d /root/kernel-bisect/lib", 30);
      ("test -x /root/kernel-bisect/lib/bisect-functions.sh", 30);
      ("test -f /var/lib/kernel-bisect/protected-kernels.list", 30);
      ("test -d /var/lib/kernel-bisect", 30) ].
Proof.
  exact (proj1 (@deploy_full_success_commands healthy_host a_deployer tt
                  eq_refl)).
Defined.

(** X13 on a host without the state directory, with both flags given: the
    three critical probes pass, so [main] writes that the slave is deployed;
    the verification fails on the fourth probe, so the exit status is 1. *)
Lemma main_check_only_witness :
  exists code,
    result (@main no_state_dir_host "/opt/kbisect" (Namespace check_args) tt)
    = Val (["Slave is deployed"], code)
    /\ code <> 0.
Proof.
  destruct (@main_check_only no_state_dir_host "/opt/kbisect" check_args tt
              eq_refl) as (_ & _ & code & Hres & _ & Hcode).
  exists code. split; [exact Hres|].
  intros E. apply Hcode in E. destruct E as (_ & checks & E).
  discriminate E.
Defined.

(** X15 on a slave that is not deployed at first: [is_deployed] returns
    false before the deployment and true after it. *)
Lemma deployed_after_success_witness :
  result (@is_deployed fresh_slave_host a_deployer false) = Val false
  /\ result (@is_deployed fresh_slave_host a_deployer
               (final (@deploy_full fresh_slave_host a_deployer false)))
     = Val true.
Proof.
  split; [reflexivity|].
  apply (@deployed_after_success fresh_slave_host a_deployer false);
    [|reflexivity].
  intros probe command initialized Hprobe _.
  destruct Hprobe as [<-|[<-|[<-|[<-|[]]]]]; reflexivity.
Defined.
